(** * pyglet_gui.theme: graphic elements, scoped dictionaries and themes

    A shallow embedding of [pyglet_gui/theme.py].  Python integers are [Z],
    Python exceptions are the [Raise] branch of [result], objects that the
    source mutates in place (vertex lists of a batch, [ScopedDict] instances,
    textures) live in explicit stores addressed by their allocation index. *)

From Stdlib Require Import ZArith Lia.
From stdpp Require Import base list strings.

Local Open Scope Z_scope.

(** ** Exceptions and results *)

Inductive exn :=
| KeyError
| AssertionError
| AttributeError
| TypeError
| ValueError
| IndexError
| RecursionError
| ResourceNotFound.

Inductive result (A : Type) :=
| Ok (a : A)
| Raise (e : exn).

Arguments Ok {A} a.
Arguments Raise {A} e.

#[global] Instance result_ret : MRet result := fun _ a => Ok a.
#[global] Instance result_bind : MBind result := fun _ _ f m =>
  match m with
  | Ok a => f a
  | Raise e => Raise e
  end.

#[global] Instance exn_eq_dec : EqDecision exn.
Proof. solve_decision. Defined.

(** ** Python values

    The values a theme holds.  A plain [dict] is a value of its own (an
    insertion-ordered association list); a [ScopedDict] and a texture are
    objects with identity, named by their index in the store that owns them.
    Templates keep whatever objects their constructor was handed. *)

Set Warnings "-register-all".

Inductive value :=
| VNone
| VInt (z : Z)
| VStr (s : string)
| VList (l : list value)
| VDict (d : list (string * value))
| VRef (a : nat)
| VTexture (t : nat)
| VTextureTemplate (texture width height : value)
| VFrameTemplate (texture width height frame_texture : value)
                 (margins : Z * Z * Z * Z) (padding : value).

(** [isinstance(v, dict)]: [ScopedDict] subclasses [dict]. *)
Definition is_dict (v : value) : bool :=
  match v with
  | VDict _ | VRef _ => true
  | _ => false
  end.

(** ** Insertion-ordered dictionaries with string keys *)

Section Dict.
Context {V : Type}.

Fixpoint dict_lookup (k : string) (d : list (string * V)) : option V :=
  match d with
  | [] => None
  | (k', v) :: d' => if decide (k = k') then Some v else dict_lookup k d'
  end.

(** [dict.__setitem__]: overwrite in place, or append a new key. *)
Fixpoint dict_set (k : string) (v : V) (d : list (string * V))
  : list (string * V) :=
  match d with
  | [] => [(k, v)]
  | (k', v') :: d' =>
      if decide (k = k') then (k, v) :: d' else (k', v') :: dict_set k v d'
  end.

Definition dict_mem (k : string) (d : list (string * V)) : bool :=
  match dict_lookup k d with
  | Some _ => true
  | None => false
  end.

Definition default_or (o : option V) (d : V) : V :=
  match o with
  | Some v => v
  | None => d
  end.
End Dict.

(** ** Graphic elements *)

Module Element.

(** What an element needs of a pyglet texture: its integer pixel size. *)
Record texture := { tex_width : Z; tex_height : Z }.

(** Four distances, in the source's order: left, right, top, bottom (bound
    below as [left_] and [right_], the plain names being constructors). *)
Definition sides : Type := Z * Z * Z * Z.

(** The concrete subclasses of [GraphicElement]. *)
Inductive kind :=
| TextureGraphicElement (texture : texture)
| FrameTextureGraphicElement (outer_texture inner_texture : texture)
                             (margins padding : sides).

(** A vertex list owned by a batch: [batch.add] appends one, [delete] retires
    it, assigning [vertices] rewrites its positions.  The positions are in
    the format ['v2i'], 32-bit signed integers (see [c_int]). *)
Record vertex_list := {
  vl_count : nat;
  vl_vertices : list Z;
  vl_deleted : bool }.

Abbreviation batch := (list vertex_list).

Record element := {
  el_kind : kind;
  _x : Z;
  _y : Z;
  width : Z;
  height : Z;
  _group : option nat;
  _vertex_list : option nat }.

(** [int(v)] on a value that already is an integer. *)
Definition int (v : Z) : Z := v.

(** What a vertex list keeps of a coordinate: the format ['v2i'] stores
    32-bit signed C integers, and a value out of range wraps around
    silently. *)
Definition c_int (z : Z) : Z := (z + 2 ^ 31) mod 2 ^ 32 - 2 ^ 31.

(** [TextureGraphicElement._get_vertices] and
    [FrameTextureGraphicElement._get_vertices]. *)
Definition _get_vertices (e : element) : list Z :=
  match el_kind e with
  | TextureGraphicElement _ =>
      let x1 := int (_x e) in
      let y1 := int (_y e) in
      let x2 := x1 + int (width e) in
      let y2 := y1 + int (height e) in
      [x1; y1; x2; y1; x2; y2; x1; y2]
  | FrameTextureGraphicElement _ _ (left_, right_, top, bottom) _ =>
      let x1 := int (_x e) in
      let y1 := int (_y e) in
      let x2 := x1 + int left_ in
      let y2 := y1 + int bottom in
      let x3 := x1 + int (width e) - int right_ in
      let y3 := y1 + int (height e) - int top in
      let x4 := x1 + int (width e) in
      let y4 := y1 + int (height e) in
      [x1; y1; x2; y1; x2; y2; x1; y2;
       x2; y1; x3; y1; x3; y2; x2; y2;
       x3; y1; x4; y1; x4; y2; x3; y2;
       x1; y2; x2; y2; x2; y3; x1; y3;
       x2; y2; x3; y2; x3; y3; x2; y3;
       x3; y2; x4; y2; x4; y3; x3; y3;
       x1; y3; x2; y3; x2; y4; x1; y4;
       x2; y3; x3; y3; x3; y4; x2; y4;
       x3; y3; x4; y3; x4; y4; x3; y4]
  end.

(** Number of vertices each subclass asks the batch for in [_load]. *)
Definition vertex_count (k : kind) : nat :=
  match k with
  | TextureGraphicElement _ => 4%nat
  | FrameTextureGraphicElement _ _ _ _ => 36%nat
  end.

(** [_load]: asserts that nothing is allocated, then allocates. *)
Definition _load (e : element) (b : batch) : result (element * batch) :=
  match _vertex_list e with
  | Some _ => Raise AssertionError
  | None =>
      let vl := {| vl_count := vertex_count (el_kind e);
                   vl_vertices := c_int <$> _get_vertices e;
                   vl_deleted := false |} in
      Ok ({| el_kind := el_kind e; _x := _x e; _y := _y e;
             width := width e; height := height e;
             _group := _group e;
             _vertex_list := Some (length b) |},
          b ++ [vl])
  end.

(** [GraphicElement.__init__] as the two subclasses call it: position (0, 0),
    the outer texture's size, the texture group, and a first [_load]. *)
Definition texture_of (k : kind) : texture :=
  match k with
  | TextureGraphicElement t => t
  | FrameTextureGraphicElement o _ _ _ => o
  end.

Definition __init__ (k : kind) (group : nat) (b : batch)
  : result (element * batch) :=
  _load {| el_kind := k; _x := 0; _y := 0;
           width := tex_width (texture_of k);
           height := tex_height (texture_of k);
           _group := Some group;
           _vertex_list := None |} b.

(** [unload]: [self._vertex_list.delete()] is an attribute access on [None]
    when nothing is allocated. *)
Definition unload (e : element) (b : batch) : result (element * batch) :=
  match _vertex_list e with
  | None => Raise AttributeError
  | Some h =>
      match b !! h with
      | None => Raise AttributeError
      | Some vl =>
          Ok ({| el_kind := el_kind e; _x := _x e; _y := _y e;
                 width := width e; height := height e;
                 _group := None;
                 _vertex_list := None |},
              <[h := {| vl_count := vl_count vl;
                        vl_vertices := vl_vertices vl;
                        vl_deleted := true |}]> b)
      end
  end.

(** [update]: stores the bounds, rewrites the vertices only while a vertex
    list is allocated. *)
Definition update (e : element) (b : batch) (x y w h : Z)
  : result (element * batch) :=
  let e' := {| el_kind := el_kind e; _x := x; _y := y;
               width := w; height := h;
               _group := _group e;
               _vertex_list := _vertex_list e |} in
  match _vertex_list e' with
  | Some hd =>
      match b !! hd with
      | None => Raise AttributeError
      | Some vl =>
          Ok (e', <[hd := {| vl_count := vl_count vl;
                             vl_vertices := c_int <$> _get_vertices e';
                             vl_deleted := vl_deleted vl |}]> b)
      end
  | None => Ok (e', b)
  end.

(** [get_content_size]: the base class returns its arguments, the frame
    element insets them by the padding. *)
Definition get_content_size (k : kind) (w h : Z) : Z * Z :=
  match k with
  | TextureGraphicElement _ => (w, h)
  | FrameTextureGraphicElement _ _ _ (left_, right_, top, bottom) =>
      (w - left_ - right_, h - top - bottom)
  end.

(** [get_needed_size]. *)
Definition get_needed_size (k : kind) (content_width content_height : Z)
  : Z * Z :=
  match k with
  | TextureGraphicElement _ => (content_width, content_height)
  | FrameTextureGraphicElement outer _ _ (left_, right_, top, bottom) =>
      (Z.max (content_width + left_ + right_) (tex_width outer),
       Z.max (content_height + top + bottom) (tex_height outer))
  end.

(** [get_content_region]. *)
Definition get_content_region (e : element) : Z * Z * Z * Z :=
  match el_kind e with
  | TextureGraphicElement _ => (_x e, _y e, width e, height e)
  | FrameTextureGraphicElement _ _ _ (left_, right_, top, bottom) =>
      (_x e + left_, _y e + bottom,
       width e - left_ - right_, height e - top - bottom)
  end.

(** *** Reading quads back from a vertex list

    A cell is an axis-aligned rectangle given by its lower-left and
    upper-right corners.  [cells_of] reads a flat coordinate list eight
    numbers at a time and accepts a quad only when its four vertices are
    lower-left, lower-right, upper-right, upper-left of one rectangle. *)

Record cell := { lo_x : Z; lo_y : Z; hi_x : Z; hi_y : Z }.

Fixpoint cells_of (vs : list Z) : option (list cell) :=
  match vs with
  | [] => Some []
  | ax :: ay :: bx :: by_ :: cx :: cy :: dx :: dy :: rest =>
      if bool_decide (ay = by_ ∧ bx = cx ∧ cy = dy ∧ dx = ax)
      then cs ← cells_of rest;
           Some ({| lo_x := ax; lo_y := ay; hi_x := cx; hi_y := cy |} :: cs)
      else None
  | _ => None
  end.

Definition cell_width (c : cell) : Z := hi_x c - lo_x c.
Definition cell_height (c : cell) : Z := hi_y c - lo_y c.

(** Half-open membership, so that a point on a shared edge belongs to one
    cell only. *)
Definition in_cell (c : cell) (px py : Z) : bool :=
  (lo_x c <=? px) && (px <? hi_x c) && (lo_y c <=? py) && (py <? hi_y c).

(** How many of the cells contain the point. *)
Definition cover (cs : list cell) (px py : Z) : nat :=
  length (List.filter (fun c => in_cell c px py) cs).

Definition cell_size (c : cell) : Z * Z := (cell_width c, cell_height c).

(** The 3x3 grid spanned by four column and four row boundaries, row by row
    from the bottom. *)
Definition grid (c0 c1 c2 c3 r0 r1 r2 r3 : Z) : list cell :=
  [ {| lo_x := c0; lo_y := r0; hi_x := c1; hi_y := r1 |};
    {| lo_x := c1; lo_y := r0; hi_x := c2; hi_y := r1 |};
    {| lo_x := c2; lo_y := r0; hi_x := c3; hi_y := r1 |};
    {| lo_x := c0; lo_y := r1; hi_x := c1; hi_y := r2 |};
    {| lo_x := c1; lo_y := r1; hi_x := c2; hi_y := r2 |};
    {| lo_x := c2; lo_y := r1; hi_x := c3; hi_y := r2 |};
    {| lo_x := c0; lo_y := r2; hi_x := c1; hi_y := r3 |};
    {| lo_x := c1; lo_y := r2; hi_x := c2; hi_y := r3 |};
    {| lo_x := c2; lo_y := r2; hi_x := c3; hi_y := r3 |} ].

(** A frame element at the given bounds (allocation state is irrelevant to
    the geometry). *)
Definition frame_at (outer inner : texture) (margins padding : sides)
    (x y w h : Z) (g v : option nat) : element :=
  {| el_kind := FrameTextureGraphicElement outer inner margins padding;
     _x := x; _y := y; width := w; height := h;
     _group := g; _vertex_list := v |}.

(** A 32x32 single-texture element, as [generate] builds it. *)
Definition quad32 : kind :=
  TextureGraphicElement {| tex_width := 32; tex_height := 32 |}.

End Element.

(** ** Scoped dictionaries *)

Module ScopedDict.

(** A [ScopedDict] instance: its [parent] attribute and its own items. *)
Record node := { parent : option nat; items : list (string * value) }.

(** All instances, by allocation index: a new instance is appended, so that
    two names for one index are two references to one object. *)
Abbreviation heap := (list node).

(** What [__getitem__], [get] take as [key]: [None], a single key, or a
    list of keys.  A tuple of keys is treated like the list by every
    [ScopedDict] method; the two differ only where a path reaches a plain
    dict, which takes a tuple as one key, and [KPath] is the list. *)
Inductive key :=
| KNone
| KStr (k : string)
| KPath (path : list string).

(** Truth value of an object: empty containers, zero and [None] are false; a
    [ScopedDict] is a [dict], hence false exactly when it has no items. *)
Definition truthy (h : heap) (v : value) : bool :=
  match v with
  | VNone => false
  | VInt z => negb (z =? 0)
  | VStr s => negb (bool_decide (s = EmptyString))
  | VList l => match l with [] => false | _ => true end
  | VDict d => match d with [] => false | _ => true end
  | VRef a =>
      match h !! a with
      | Some n => match items n with [] => false | _ => true end
      | None => true
      end
  | _ => true
  end.

(** *** Lookup

    The recursion up the parent chain is bounded by [fuel]; running out of
    it is Python's [RecursionError]. *)

(** [__getitem__] on a single key: the local items, then the parent
    whenever there is one. *)
Fixpoint getitem_key (fuel : nat) (h : heap) (self : nat) (k : string)
  : result value :=
  match fuel with
  | O => Raise RecursionError
  | S fuel' =>
      match h !! self with
      | None => Raise AttributeError
      | Some n =>
          match dict_lookup k (items n) with
          | Some v => Ok v
          | None =>
              match parent n with
              | Some p => getitem_key fuel' h p k
              | None => Raise KeyError
              end
          end
      end
  end.

(** [__getitem__] on a list: more than one segment resolves the first and
    calls [__getitem__] of the result with the rest, one segment is a single
    key, none is the store itself.  Only a [ScopedDict] can be indexed with
    a list: a plain dict, a list and a string have a [__getitem__] that
    refuses a list ([TypeError]), the other values have no [__getitem__]
    at all ([AttributeError]). *)
Fixpoint getitem_path (fuel : nat) (h : heap) (self : nat)
    (path : list string) : result value :=
  match path with
  | [] => Ok (VRef self)
  | k :: rest =>
      match rest with
      | [] => getitem_key fuel h self k
      | _ :: _ =>
          v ← getitem_key fuel h self k;
          match v with
          | VRef a => getitem_path fuel h a rest
          | VDict _ | VList _ | VStr _ => Raise TypeError
          | _ => Raise AttributeError
          end
      end
  end.

Definition __getitem__ (fuel : nat) (h : heap) (self : nat) (k : key)
  : result value :=
  match k with
  | KNone => Ok (VRef self)
  | KPath path => getitem_path fuel h self path
  | KStr k => getitem_key fuel h self k
  end.

(** [get] on a single key: the local items, then the parent when the parent
    is truthy, else the default. *)
Fixpoint get_key (fuel : nat) (h : heap) (self : nat) (k : string)
    (default : value) : result value :=
  match fuel with
  | O => Raise RecursionError
  | S fuel' =>
      match h !! self with
      | None => Raise AttributeError
      | Some n =>
          match dict_lookup k (items n) with
          | Some v => Ok v
          | None =>
              match parent n with
              | Some p =>
                  if truthy h (VRef p) then get_key fuel' h p k default
                  else Ok default
              | None => Ok default
              end
          end
      end
  end.

(** [get(None, default)]: [None] is no key of any store, so only the walk
    up the truthy parents remains. *)
Fixpoint get_none (fuel : nat) (h : heap) (self : nat) (default : value)
  : result value :=
  match fuel with
  | O => Raise RecursionError
  | S fuel' =>
      match h !! self with
      | None => Raise AttributeError
      | Some n =>
          match parent n with
          | Some p =>
              if truthy h (VRef p) then get_none fuel' h p default
              else Ok default
          | None => Ok default
          end
      end
  end.

(** [get] on a list: the first segment goes through [__getitem__], the rest
    through [get] of the result; the empty list is a [KeyError]. *)
Fixpoint get_list (fuel : nat) (h : heap) (self : nat) (path : list string)
    (default : value) : result value :=
  match path with
  | [] => Raise KeyError
  | k :: rest =>
      match rest with
      | [] => get_key fuel h self k default
      | _ :: _ =>
          v ← getitem_key fuel h self k;
          match v with
          | VRef a => get_list fuel h a rest default
          | VDict _ => Raise TypeError
          | _ => Raise AttributeError
          end
      end
  end.

Definition get (fuel : nat) (h : heap) (self : nat) (k : key)
    (default : value) : result value :=
  match k with
  | KPath path => get_list fuel h self path default
  | KStr k => get_key fuel h self k default
  | KNone => get_none fuel h self default
  end.

(** [get_path]: one segment is [get]; otherwise [path[0]] is indexed (an
    [IndexError] on the empty list) and the rest is left to [get_path] of
    the result. *)
Fixpoint get_path (fuel : nat) (h : heap) (self : nat) (path : list string)
    (default : value) : result value :=
  match path with
  | [] => Raise IndexError
  | k :: rest =>
      match rest with
      | [] => get_key fuel h self k default
      | _ :: _ =>
          v ← getitem_key fuel h self k;
          match v with
          | VRef a => get_path fuel h a rest default
          | _ => Raise AttributeError
          end
      end
  end.


(** *** Construction and assignment *)

(** [dict.__setitem__(self, k, v)] on the instance at [self]. *)
Definition store (h : heap) (self : nat) (k : string) (v : value)
  : result heap :=
  match h !! self with
  | None => Raise AttributeError
  | Some n =>
      Ok (<[self := {| parent := parent n;
                       items := dict_set k v (items n) |}]> h)
  end.

(** [arg.items()], where [arg = None] stands for the empty dict. *)
Definition items_of (h : heap) (arg : value)
  : result (list (string * value)) :=
  match arg with
  | VNone => Ok []
  | VDict d => Ok d
  | VRef a =>
      match h !! a with
      | Some n => Ok (items n)
      | None => Raise AttributeError
      end
  | _ => Raise AttributeError
  end.

(** A [for] loop whose body may raise. *)
Fixpoint for_each {A B : Type} (body : A → B → result A) (a : A)
    (l : list B) : result A :=
  match l with
  | [] => Ok a
  | b :: l' => a' ← body a b; for_each body a' l'
  end.

(** [__setitem__], given the constructor it calls on a dict value: the value
    is wrapped in a new [ScopedDict] whose parent is the assigning store. *)
Definition setitem_with
    (ctor : heap → value → option nat → result (heap * nat))
    (h : heap) (self : nat) (k : string) (v : value) : result heap :=
  if is_dict v then
    '(h1, c) ← ctor h v (Some self);
    store h1 self k (VRef c)
  else store h self k v.

(** [ScopedDict(arg, parent)]: returns the heap with the new instance and
    its index.  A dict item is first built as [ScopedDict(v, self)] and then
    assigned with [self[k] = ...], which wraps it once more. *)
Fixpoint __init__ (fuel : nat) (h : heap) (arg : value) (par : option nat)
  : result (heap * nat) :=
  match fuel with
  | O => Raise RecursionError
  | S fuel' =>
      its ← items_of h arg;
      let self := length h in
      h' ← for_each
             (fun hc '(k, v) =>
                if is_dict v then
                  '(h1, c) ← __init__ fuel' hc v (Some self);
                  setitem_with (__init__ fuel') h1 self k (VRef c)
                else setitem_with (__init__ fuel') hc self k v)
             (h ++ [{| parent := par; items := [] |}]) its;
      Ok (h', self)
  end.

Definition __setitem__ (fuel : nat) (h : heap) (self : nat) (k : string)
    (v : value) : result heap :=
  setitem_with (__init__ fuel) h self k v.

(** [set_path]: one segment assigns locally; otherwise the first segment is
    indexed and the rest is left to [set_path] of the result. *)
Fixpoint set_path (fuel : nat) (h : heap) (self : nat) (path : list string)
    (v : value) : result heap :=
  match path with
  | [] => Raise IndexError
  | k :: rest =>
      match rest with
      | [] => __setitem__ fuel h self k v
      | _ :: _ =>
          t ← getitem_key fuel h self k;
          match t with
          | VRef a => set_path fuel h a rest v
          | _ => Raise AttributeError
          end
      end
  end.

(** *** Method calls on an arbitrary value

    [v.get(key, default)] and [v[key]] where [v] is whatever an earlier
    lookup returned. *)

Definition value_get (fuel : nat) (h : heap) (v : value) (k : key)
    (default : value) : result value :=
  match v with
  | VRef a => get fuel h a k default
  | VDict d =>
      match k with
      | KStr k => Ok (default_or (dict_lookup k d) default)
      | KNone => Ok default
      | KPath _ => Raise TypeError
      end
  | _ => Raise AttributeError
  end.

Definition value_getitem (fuel : nat) (h : heap) (v : value) (k : key)
  : result value :=
  match v with
  | VRef a => __getitem__ fuel h a k
  | VDict d =>
      match k with
      | KStr k =>
          match dict_lookup k d with
          | Some x => Ok x
          | None => Raise KeyError
          end
      | KNone => Raise KeyError
      | KPath _ => Raise TypeError
      end
  | _ => Raise TypeError
  end.


(** *** Notions the properties are stated with *)

(** The store the leading segments of a path lead to: every segment is
    indexed with [__getitem__] and has to yield a [ScopedDict]. *)
Fixpoint navigate (fuel : nat) (h : heap) (self : nat) (segs : list string)
  : result nat :=
  match segs with
  | [] => Ok self
  | k :: rest =>
      t ← getitem_key fuel h self k;
      match t with
      | VRef a => navigate fuel h a rest
      | _ => Raise AttributeError
      end
  end.

(** [binds h k s P v d]: seen from the store [s], the nearest store that has
    the key [k] among its own items is [P], [d] parent links up, and it
    binds [k] to [v]. *)
Inductive binds (h : heap) (k : string) : nat → nat → value → nat → Prop :=
| binds_here s n v :
    h !! s = Some n →
    dict_lookup k (items n) = Some v →
    binds h k s s v 0
| binds_up s n p P v d :
    h !! s = Some n →
    dict_lookup k (items n) = None →
    parent n = Some p →
    binds h k p P v d →
    binds h k s P v (S d).

(** [ancestor h s A]: [A] is the parent of [s], or the parent of its
    parent, and so on. *)
Inductive ancestor (h : heap) : nat → nat → Prop :=
| ancestor_parent s n p :
    h !! s = Some n → parent n = Some p → ancestor h s p
| ancestor_up s n p A :
    h !! s = Some n → parent n = Some p → ancestor h p A → ancestor h s A.

(** Parents are created before their children. *)
Definition parents_first (h : heap) : Prop :=
  ∀ a n p, h !! a = Some n → parent n = Some p → (p < a)%nat.

(** *** Example heaps

    An empty parent:
    [grandparent = ScopedDict({"k": 1})], [parent = ScopedDict({},
    grandparent)], [child = ScopedDict(None, parent)]. *)

Definition empty_parent_heap : heap :=
  [ {| parent := None; items := [("k", VInt 1)] |};
    {| parent := Some 0%nat; items := [] |};
    {| parent := Some 1%nat; items := [] |} ].

(** [ScopedDict({"button": {"down": {}}})], see [nested_heap_built]. *)
Definition nested_heap : heap :=
  [ {| parent := None; items := [("button", VRef 4)] |};
    {| parent := Some 0%nat; items := [("down", VRef 3)] |};
    {| parent := Some 1%nat; items := [] |};
    {| parent := Some 1%nat; items := [] |};
    {| parent := Some 0%nat; items := [("down", VRef 6)] |};
    {| parent := Some 4%nat; items := [] |};
    {| parent := Some 4%nat; items := [] |} ].

(** [root = ScopedDict({"a": {"b": {"c": 7}}})] (store 0, with [root["a"]]
    store 4 and [root["a"]["b"]] store 6), [parent = ScopedDict({}, root)]
    (store 7) and [child = ScopedDict(None, parent)] (store 8), see
    [detached_heap_built]. *)
Definition detached_heap : heap :=
  [ {| parent := None; items := [("a", VRef 4)] |};
    {| parent := Some 0%nat; items := [("b", VRef 3)] |};
    {| parent := Some 1%nat; items := [("c", VInt 7)] |};
    {| parent := Some 1%nat; items := [("c", VInt 7)] |};
    {| parent := Some 0%nat; items := [("b", VRef 6)] |};
    {| parent := Some 4%nat; items := [("c", VInt 7)] |};
    {| parent := Some 4%nat; items := [("c", VInt 7)] |};
    {| parent := Some 0%nat; items := [] |};
    {| parent := Some 7%nat; items := [] |} ].

End ScopedDict.

(** ** Themes *)

Module Theme.

Import ScopedDict.

(** A texture object: pixel size, and the [src] and [region] attributes
    the theme attaches to the textures it hands out. *)
Record texture := {
  tex_width : Z;
  tex_height : Z;
  tex_src : option string;
  tex_region : option (Z * Z * Z * Z) }.

(** The objects a theme works on: the [ScopedDict] instances, the texture
    objects by allocation index, the theme's [_textures] dict, and the
    filenames handed to [loader.texture], in call order. *)
Record state := {
  heap : ScopedDict.heap;
  textures : list texture;
  _textures : list (string * nat);
  decoded : list string }.

Definition with_heap (st : state) (h : ScopedDict.heap) : state :=
  {| heap := h; textures := textures st;
     _textures := _textures st; decoded := decoded st |}.

(** A value used as a filename: [filename not in self._textures] needs it
    hashable ([TypeError] for a list or a dict), and the loader knows
    resources by their names only, so that anything but a string is a
    resource it does not find. *)
Definition filename_of (v : value) : result string :=
  match v with
  | VStr s => Ok s
  | VList _ | VDict _ | VRef _ => Raise TypeError
  | _ => Raise ResourceNotFound
  end.

Definition as_int (v : value) : result Z :=
  match v with
  | VInt z => Ok z
  | _ => Raise TypeError
  end.

(** Unpacking a sequence into exactly four integers: [*v] as four
    positional arguments, or [x, y, width, height = v]. *)
Definition unpack4 (mismatch : exn) (v : value) : result (Z * Z * Z * Z) :=
  match v with
  | VList [a; b; c; d] =>
      x ← as_int a; y ← as_int b; w ← as_int c; h ← as_int d;
      Ok (x, y, w, h)
  | VList _ => Raise mismatch
  | _ => Raise TypeError
  end.

(** [k in v] for a dict [v]: the local keys only, also for a [ScopedDict]. *)
Definition value_contains (h : ScopedDict.heap) (k : string) (v : value)
  : result bool :=
  match v with
  | VDict d => Ok (dict_mem k d)
  | VRef a =>
      match h !! a with
      | Some n => Ok (dict_mem k (items n))
      | None => Raise AttributeError
      end
  | _ => Raise TypeError
  end.

Section Loader.

(** The resource loader: the pixel size of the image a filename decodes
    to, or nothing when the resource is missing. *)
Variable loader : string → option (Z * Z).

(** [_get_texture]: decode on the first request of a filename, then
    answer from [_textures]. *)
Definition _get_texture (st : state) (filename : string)
  : result (state * nat) :=
  match dict_lookup filename (_textures st) with
  | Some t => Ok (st, t)
  | None =>
      match loader filename with
      | None => Raise ResourceNotFound
      | Some (w, h) =>
          let t := length (textures st) in
          Ok ({| heap := heap st;
                 textures := textures st ++
                   [{| tex_width := w; tex_height := h;
                       tex_src := Some filename; tex_region := None |}];
                 _textures := dict_set filename t (_textures st);
                 decoded := decoded st ++ [filename] |}, t)
      end
  end.

(** [texture.get_region(x, y, width, height).get_texture()].  The
    rendering backend is outside this repository; its contract is that a
    sub-region is produced as a new texture object, of the region's size,
    and that [get_texture] of a texture is that texture. *)
Definition get_region (st : state) (t : nat) (x y w h : Z)
  : result (state * nat) :=
  match textures st !! t with
  | None => Raise AttributeError
  | Some _ =>
      Ok ({| heap := heap st;
             textures := textures st ++
               [{| tex_width := w; tex_height := h;
                   tex_src := None; tex_region := None |}];
             _textures := _textures st;
             decoded := decoded st |}, length (textures st))
  end.

(** [_get_texture_region]: the cached whole texture, a region of it, and
    the two attributes set on the region. *)
Definition _get_texture_region (st : state) (filename : string)
    (x y w h : Z) : result (state * nat) :=
  '(st1, t) ← _get_texture st filename;
  '(st2, retval) ← get_region st1 t x y w h;
  match textures st2 !! t, textures st2 !! retval with
  | Some whole, Some r =>
      Ok ({| heap := heap st2;
             textures := <[retval := {| tex_width := tex_width r;
                                        tex_height := tex_height r;
                                        tex_src := tex_src whole;
                                        tex_region := Some (x, y, w, h) |}]>
                           (textures st2);
             _textures := _textures st2;
             decoded := decoded st2 |}, retval)
  | _, _ => Raise AttributeError
  end.

(** Attribute reads [v.width] and [v.height]. *)
Definition getattr_width (st : state) (v : value) : result value :=
  match v with
  | VTexture t =>
      match textures st !! t with
      | Some x => Ok (VInt (tex_width x))
      | None => Raise AttributeError
      end
  | VTextureTemplate _ w _ => Ok w
  | VFrameTemplate _ w _ _ _ _ => Ok w
  | _ => Raise AttributeError
  end.

Definition getattr_height (st : state) (v : value) : result value :=
  match v with
  | VTexture t =>
      match textures st !! t with
      | Some x => Ok (VInt (tex_height x))
      | None => Raise AttributeError
      end
  | VTextureTemplate _ _ h => Ok h
  | VFrameTemplate _ _ h _ _ _ => Ok h
  | _ => Raise AttributeError
  end.

(** [a or b]: [b] is evaluated only when [a] is false. *)
Definition or_else (st : state) (a : value) (b : result value)
  : result value :=
  if truthy (heap st) a then Ok a else b.

(** [TextureGraphicElementTemplate.__init__(texture, width, height)]. *)
Definition TextureGraphicElementTemplate (st : state)
    (texture width height : value) : result value :=
  w ← or_else st width (getattr_width st texture);
  h ← or_else st height (getattr_height st texture);
  Ok (VTextureTemplate texture w h).

(** [FrameTextureGraphicElementTemplate.__init__]. *)
Definition FrameTextureGraphicElementTemplate (st : state)
    (texture frame padding width height : value)
  : result (state * value) :=
  w ← or_else st width (getattr_width st texture);
  h ← or_else st height (getattr_height st texture);
  '(fx, fy, fw, fh) ← unpack4 TypeError frame;
  match texture with
  | VTexture t =>
      '(st1, ft) ← get_region st t fx fy fw fh;
      tw ← (getattr_width st1 texture ≫= as_int);
      th ← (getattr_height st1 texture ≫= as_int);
      Ok (st1, VFrameTemplate texture w h (VTexture ft)
                 (fx, tw - fw - fx, th - fh - fy, fy) padding)
  | _ => Raise AttributeError
  end.

(** [target[k] = v] inside the theme. *)
Definition set_item (fuel : nat) (st : state) (target : nat) (k : string)
    (v : value) : result state :=
  h ← __setitem__ fuel (heap st) target k v;
  Ok (with_heap st h).

(** The texture an image mapping names: a region of the source when it
    has a [region], the whole source otherwise. *)
Definition image_texture (fuel : nat) (st : state) (v : value)
  : result (state * nat) :=
  has_region ← value_contains (heap st) "region" v;
  if has_region : bool then
    source ← value_getitem fuel (heap st) v (KStr "source");
    region ← value_getitem fuel (heap st) v (KStr "region");
    '(x, y, w, h) ← unpack4 TypeError region;
    filename ← filename_of source;
    _get_texture_region st filename x y w h
  else
    source ← value_getitem fuel (heap st) v (KStr "source");
    filename ← filename_of source;
    _get_texture st filename.

(** [_update_with_images(target, input_dict)]; [self] is the theme. *)
Fixpoint _update_with_images (fuel : nat) (st : state) (self target : nat)
    (input_dict : value) : result state :=
  match fuel with
  | O => Raise RecursionError
  | S fuel' =>
      its ← items_of (heap st) input_dict;
      for_each
        (fun st '(k, v) =>
           if String.prefix "image" k then
             if is_dict v then
               '(st1, t) ← image_texture fuel' st v;
               has_frame ← value_contains (heap st1) "frame" v;
               if has_frame : bool then
                 frame ← value_getitem fuel' (heap st1) v (KStr "frame");
                 padding ← value_get fuel' (heap st1) v (KStr "padding")
                             (VList [VInt 0; VInt 0; VInt 0; VInt 0]);
                 '(st2, tpl) ← FrameTextureGraphicElementTemplate st1
                                 (VTexture t) frame padding VNone VNone;
                 set_item fuel' st2 target k tpl
               else
                 tpl ← TextureGraphicElementTemplate st1
                         (VTexture t) VNone VNone;
                 set_item fuel' st1 target k tpl
             else
               filename ← filename_of v;
               '(st1, t) ← _get_texture st filename;
               tpl ← TextureGraphicElementTemplate st1
                       (VRef self) (VTexture t) VNone;
               set_item fuel' st1 target k tpl
           else if is_dict v then
             '(h1, temp) ← ScopedDict.__init__ fuel' (heap st) VNone
                             (Some target);
             st2 ← _update_with_images fuel' (with_heap st h1) self temp v;
             set_item fuel' st2 target k (VRef temp)
           else set_item fuel' st target k v)
        st its
  end.

(** [Theme(dictionary, resources_path)], built next to the objects that
    already exist. *)
Definition __init__ (fuel : nat) (h : ScopedDict.heap)
    (ts : list texture) (dictionary : value) : result (state * nat) :=
  '(h1, self) ← ScopedDict.__init__ fuel h dictionary None;
  st ← _update_with_images fuel
         {| heap := h1; textures := ts; _textures := []; decoded := [] |}
         self self dictionary;
  Ok (st, self).

End Loader.

(** The theme's cache is in order: every cached filename names a texture
    that exists, every decoded filename is cached, and no filename was
    decoded twice. *)
Definition cache_ok (st : state) : Prop :=
  (∀ f t, dict_lookup f (_textures st) = Some t →
          (t < length (textures st))%nat) ∧
  (∀ f, f ∈ decoded st → is_Some (dict_lookup f (_textures st))) ∧
  NoDup (decoded st).

(** *** Example themes *)

(** A loader for which every file decodes to a 32x32 image. *)
Definition loader32 : string → option (Z * Z) := λ _, Some (32, 32).

Definition no_textures : state :=
  {| heap := []; textures := []; _textures := []; decoded := [] |}.

Definition region_spec : value :=
  VDict [("source", VStr "a.png");
         ("region", VList [VInt 0; VInt 0; VInt 8; VInt 8])].

Definition whole_spec : value := VDict [("source", VStr "a.png")].

(** What a theme built from [dictionary] holds under a top-level key, and
    the files it decoded. *)
Definition built_entry (dictionary : value) (k : string) : result value :=
  '(st, self) ← Theme.__init__ loader32 2 [] [] dictionary;
  __getitem__ 1 (heap st) self (KStr k).

Definition built_decoded (dictionary : value) : result (list string) :=
  '(st, _) ← Theme.__init__ loader32 2 [] [] dictionary;
  Ok (decoded st).

End Theme.

(** ** Allocations of a batch *)

Module Batch.

Import Element.

(** The vertex lists of the batch that were not deleted. *)
Definition live (b : batch) : nat :=
  length (List.filter (λ vl, negb (vl_deleted vl)) b).

(** The coordinates a vertex list can hold as they are. *)
Definition fits (vs : list Z) : Prop :=
  Forall (λ z, - 2 ^ 31 ≤ z < 2 ^ 31) vs.

(** The element holds the handle [hd] of a vertex list that is live. *)
Definition owns (e : element) (b : batch) (hd : nat) : Prop :=
  _vertex_list e = Some hd ∧
  ∃ vl, b !! hd = Some vl ∧ vl_deleted vl = false.

End Batch.

(** ** Texture coordinates of a frame element *)

Module TexCoords.

Section Coords.

(** Texture coordinates are only moved around, never computed with, so any
    type of numbers will do for them. *)
Context {C : Type}.

(** [_get_tex_coords], given the slices [tex_coords[0:2]] (lower left) and
    [tex_coords[6:8]] (upper right) of the outer and of the inner texture. *)
Definition _get_tex_coords (outer_ll outer_ur inner_ll inner_ur : C * C)
  : list C :=
  let '(x1, y1) := outer_ll in
  let '(x4, y4) := outer_ur in
  let '(x2, y2) := inner_ll in
  let '(x3, y3) := inner_ur in
  [x1; y1; x2; y1; x2; y2; x1; y2;
   x2; y1; x3; y1; x3; y2; x2; y2;
   x3; y1; x4; y1; x4; y2; x3; y2;
   x1; y2; x2; y2; x2; y3; x1; y3;
   x2; y2; x3; y2; x3; y3; x2; y3;
   x3; y2; x4; y2; x4; y3; x3; y3;
   x1; y3; x2; y3; x2; y4; x1; y4;
   x2; y3; x3; y3; x3; y4; x2; y4;
   x3; y3; x4; y3; x4; y4; x3; y4].

(** The [i]-th vertex of a flat coordinate list. *)
Definition vertex (vs : list C) (i : nat) : option (C * C) :=
  x ← vs !! (2 * i)%nat; y ← vs !! (2 * i + 1)%nat; Some (x, y).

End Coords.

End TexCoords.

(** * Properties *)

(** ** Dictionaries *)

Section DictFacts.
Context {V : Type}.
Implicit Types (d : list (string * V)) (k : string) (v : V).

Lemma dict_lookup_set_eq k v d : dict_lookup k (dict_set k v d) = Some v.
Proof.
  induction d as [|[k' v'] d IH]; simpl.
  - by rewrite decide_True.
  - destruct (decide (k = k')) as [->|Hne]; simpl.
    + by rewrite decide_True.
    + by rewrite decide_False.
Qed.

Lemma dict_lookup_set_ne k k' v d :
  k' ≠ k → dict_lookup k' (dict_set k v d) = dict_lookup k' d.
Proof.
  intros Hne. induction d as [|[k0 v0] d IH]; simpl.
  - by rewrite decide_False.
  - destruct (decide (k = k0)) as [->|Hk]; simpl.
    + by rewrite !decide_False.
    + destruct (decide (k' = k0)); [done | apply IH].
Qed.
End DictFacts.

(** ** Graphic elements *)

Module ElementFacts.

Import Element.

(** Replace every comparison in the goal by its truth value, which the
    assumptions have to determine. *)
Ltac settle_comparisons :=
  repeat match goal with
         | |- context [?a <=? ?b] =>
             first [ rewrite (proj2 (Z.leb_le a b)) by lia
                   | rewrite (proj2 (Z.leb_gt a b)) by lia ]
         | |- context [?a <? ?b] =>
             first [ rewrite (proj2 (Z.ltb_lt a b)) by lia
                   | rewrite (proj2 (Z.ltb_ge a b)) by lia ]
         end.

(** Where a coordinate lies with respect to four ordered boundaries. *)
Lemma span_cases (c0 c1 c2 c3 p : Z) :
  p < c0 ∨ (c0 ≤ p < c1) ∨ (c1 ≤ p < c2) ∨ (c2 ≤ p < c3) ∨ c3 ≤ p.
Proof. lia. Qed.

Lemma grid_cover c0 c1 c2 c3 r0 r1 r2 r3 px py :
  c0 ≤ c1 → c1 ≤ c2 → c2 ≤ c3 → r0 ≤ r1 → r1 ≤ r2 → r2 ≤ r3 →
  cover (grid c0 c1 c2 c3 r0 r1 r2 r3) px py =
  if in_cell {| lo_x := c0; lo_y := r0; hi_x := c3; hi_y := r3 |} px py
  then 1%nat else 0%nat.
Proof.
  intros. unfold cover, grid, in_cell; cbn [List.filter lo_x lo_y hi_x hi_y].
  destruct (span_cases c0 c1 c2 c3 px) as [?|[?|[?|[?|?]]]];
    destruct (span_cases r0 r1 r2 r3 py) as [?|[?|[?|[?|?]]]];
    settle_comparisons; reflexivity.
Qed.

(** C1. The 36 vertices of a frame element are the quads of the 3x3 grid
    with column boundaries x, x+l, x+W-r, x+W and row boundaries
    y, y+b, y+H-t, y+H; its corner cells measure l x b, r x b, l x t and
    r x t whatever W and H are; and for non-negative margins with
    l+r <= W and t+b <= H every point of the outer rectangle lies in
    exactly one cell and every other point in none. *)
Theorem frame_vertices_tile (outer inner : texture) (padding : sides)
    (l r t b x y W H : Z) (g v : option nat) :
  let e := frame_at outer inner (l, r, t, b) padding x y W H g v in
  let cs := grid x (x + l) (x + W - r) (x + W)
                 y (y + b) (y + H - t) (y + H) in
  length (_get_vertices e) = (2 * 36)%nat ∧
  cells_of (_get_vertices e) = Some cs ∧
  cell_size <$> cs !! 0%nat = Some (l, b) ∧
  cell_size <$> cs !! 2%nat = Some (r, b) ∧
  cell_size <$> cs !! 6%nat = Some (l, t) ∧
  cell_size <$> cs !! 8%nat = Some (r, t) ∧
  (0 ≤ l → 0 ≤ r → 0 ≤ t → 0 ≤ b → l + r ≤ W → t + b ≤ H →
   ∀ px py,
     cover cs px py =
     if in_cell {| lo_x := x; lo_y := y; hi_x := x + W; hi_y := y + H |}
                px py
     then 1%nat else 0%nat).
Proof.
  intros e cs. split; [reflexivity|]. split.
  { unfold e, frame_at, _get_vertices, int; simpl.
    repeat (rewrite bool_decide_true by (repeat split; reflexivity); simpl).
    reflexivity. }
  repeat split.
  - unfold cell_size, cell_width, cell_height; simpl. do 2 f_equal; lia.
  - unfold cell_size, cell_width, cell_height; simpl. do 2 f_equal; lia.
  - unfold cell_size, cell_width, cell_height; simpl. do 2 f_equal; lia.
  - unfold cell_size, cell_width, cell_height; simpl. do 2 f_equal; lia.
  - intros. apply grid_cover; lia.
Qed.

Lemma frame_vertices_tile_witness :
  let cs := grid 10 14 38 42 20 23 47 52 in
  cells_of (_get_vertices
              (frame_at {| tex_width := 32; tex_height := 32 |}
                        {| tex_width := 24; tex_height := 24 |}
                        (4, 4, 5, 3) (0, 0, 0, 0) 10 20 32 32 None None))
  = Some cs ∧
  cover cs 14 23 = 1%nat ∧ cover cs 42 23 = 0%nat.
Proof.
  pose proof (frame_vertices_tile
                {| tex_width := 32; tex_height := 32 |}
                {| tex_width := 24; tex_height := 24 |}
                (0, 0, 0, 0) 4 4 5 3 10 20 32 32 None None) as H.
  simpl in H. destruct H as (_ & Hc & _ & _ & _ & _ & Ht).
  split; [exact Hc|].
  split; rewrite Ht by lia; reflexivity.
Defined.

(** C7. [get_needed_size] of a frame element is, per axis, the maximum of
    content plus padding and the outer texture's size, and
    [get_content_size] of that size is at least the content size asked
    for. *)
Theorem needed_size_covers_content (outer inner : texture)
    (margins : sides) (l r t b cw ch : Z) :
  let k := FrameTextureGraphicElement outer inner margins (l, r, t, b) in
  get_needed_size k cw ch =
    (Z.max (cw + l + r) (tex_width outer),
     Z.max (ch + t + b) (tex_height outer)) ∧
  cw ≤ (get_content_size k (get_needed_size k cw ch).1
                           (get_needed_size k cw ch).2).1 ∧
  ch ≤ (get_content_size k (get_needed_size k cw ch).1
                           (get_needed_size k cw ch).2).2.
Proof.
  simpl. split; [reflexivity|]. split; lia.
Qed.

(** Creating an element, unloading it and updating it runs to the end: the
    bounds are stored, no vertex list is allocated, the retired vertex list
    keeps its old positions. *)
Lemma update_after_unload_completes :
  ('(e, b) ← __init__ quad32 0 [];
   '(e1, b1) ← unload e b;
   update e1 b1 5 6 7 8)
  = Ok ({| el_kind := quad32; _x := 5; _y := 6; width := 7; height := 8;
           _group := None; _vertex_list := None |},
        [{| vl_count := 4;
            vl_vertices := [0; 0; 32; 0; 32; 32; 0; 32];
            vl_deleted := true |}]).
Proof. reflexivity. Qed.

(** C6 (amended). After [unload], [update] completes normally: it stores
    the new bounds and leaves the batch as it is, the element staying without
    vertex list and group.  A second [_load] without an [unload] in between
    raises [AssertionError]. *)
Theorem update_after_unload_and_double_load (e : element) (b : batch) :
  (∀ e1 b1 x y w h,
     unload e b = Ok (e1, b1) →
     update e1 b1 x y w h =
       Ok ({| el_kind := el_kind e; _x := x; _y := y;
              width := w; height := h;
              _group := None; _vertex_list := None |}, b1)) ∧
  (∀ e1 b1,
     _load e b = Ok (e1, b1) →
     _load e1 b1 = Raise AssertionError).
Proof.
  split.
  - intros e1 b1 x y w h Hu. unfold unload in Hu.
    destruct (_vertex_list e) as [hd|]; [|discriminate].
    destruct (b !! hd); [|discriminate].
    injection Hu as <- <-. reflexivity.
  - intros e1 b1 Hl. unfold _load in Hl.
    destruct (_vertex_list e); [discriminate|].
    injection Hl as <- <-. reflexivity.
Qed.

Lemma update_after_unload_and_double_load_witness :
  let e := {| el_kind := quad32; _x := 0; _y := 0; width := 32; height := 32;
              _group := Some 0%nat; _vertex_list := Some 0%nat |} in
  let vl := {| vl_count := 4; vl_vertices := [0; 0; 32; 0; 32; 32; 0; 32];
               vl_deleted := false |} in
  (∃ e1 b1, unload e [vl] = Ok (e1, b1) ∧
            update e1 b1 5 6 7 8 =
              Ok ({| el_kind := quad32; _x := 5; _y := 6;
                     width := 7; height := 8;
                     _group := None; _vertex_list := None |}, b1)) ∧
  (∃ e0 e1 b1, _load e0 [] = Ok (e1, b1) ∧
               _load e1 b1 = Raise AssertionError).
Proof.
  intros e vl. split.
  - eexists _, _. split; [reflexivity|].
    exact (proj1 (update_after_unload_and_double_load e [vl])
                 _ _ 5 6 7 8 eq_refl).
  - set (e0 := {| el_kind := quad32; _x := 0; _y := 0;
                  width := 32; height := 32;
                  _group := Some 0%nat; _vertex_list := None |}).
    exists e0. eexists _, _. split; [reflexivity|].
    exact (proj2 (update_after_unload_and_double_load e0 []) _ _ eq_refl).
Defined.

End ElementFacts.

(** ** Scoped dictionaries *)

Module ScopedDictFacts.

Import ScopedDict.

Implicit Types (h : heap) (k : string) (v default : value).

(** *** Single-key lookup *)

Lemma get_key_local fuel h s n k v default :
  h !! s = Some n → dict_lookup k (items n) = Some v →
  get_key (S fuel) h s k default = Ok v.
Proof. intros Hs Hk. cbn [get_key]. by rewrite Hs, Hk. Qed.

Lemma get_key_orphan fuel h s n k default :
  h !! s = Some n → dict_lookup k (items n) = None → parent n = None →
  get_key (S fuel) h s k default = Ok default.
Proof. intros Hs Hk Hp. cbn [get_key]. by rewrite Hs, Hk, Hp. Qed.

Lemma get_key_parent fuel h s n p k default :
  h !! s = Some n → dict_lookup k (items n) = None → parent n = Some p →
  truthy h (VRef p) = true →
  get_key (S fuel) h s k default = get_key fuel h p k default.
Proof. intros Hs Hk Hp Ht. cbn [get_key]. by rewrite Hs, Hk, Hp, Ht. Qed.

Lemma get_key_empty_parent fuel h s n p k default :
  h !! s = Some n → dict_lookup k (items n) = None → parent n = Some p →
  truthy h (VRef p) = false →
  get_key (S fuel) h s k default = Ok default.
Proof. intros Hs Hk Hp Ht. cbn [get_key]. by rewrite Hs, Hk, Hp, Ht. Qed.

(** Whatever [get] finds that is not the default, [__getitem__] finds too. *)
Lemma get_key_getitem fuel h s k default v :
  get_key fuel h s k default = Ok v → v ≠ default →
  getitem_key fuel h s k = Ok v.
Proof.
  revert s. induction fuel as [|fuel IH]; intros s Hg Hne; [discriminate|].
  cbn [get_key getitem_key] in *.
  destruct (h !! s) as [n|]; [|discriminate].
  destruct (dict_lookup k (items n)); [done|].
  destruct (parent n) as [p|].
  - destruct (truthy h (VRef p)); [by apply IH|]. congruence.
  - congruence.
Qed.

Lemma binds_getitem fuel h k s P v d :
  binds h k s P v d → (d < fuel)%nat → getitem_key fuel h s k = Ok v.
Proof.
  intros Hb. revert fuel.
  induction Hb as [s n v Hs Hk|s n p P v d Hs Hk Hp _ IH]; intros fuel Hd.
  - destruct fuel; [lia|]. cbn [getitem_key]. by rewrite Hs, Hk.
  - destruct fuel; [lia|]. cbn [getitem_key]. rewrite Hs, Hk, Hp.
    apply IH. lia.
Qed.

(** In a heap where parents come first, [fuel] beyond the store's index
    always suffices, and [get] on a single key returns. *)
Lemma get_key_returns fuel h s k default :
  parents_first h → (s < length h)%nat → (s < fuel)%nat →
  ∃ v, get_key fuel h s k default = Ok v.
Proof.
  intros Hwf. revert s. induction fuel as [|fuel IH]; intros s Hs Hf; [lia|].
  cbn [get_key].
  destruct (lookup_lt_is_Some_2 h s Hs) as [n Hn]. rewrite Hn.
  destruct (dict_lookup k (items n)); [by eexists|].
  destruct (parent n) as [p|] eqn:Hp; [|by eexists].
  destruct (truthy h (VRef p)); [|by eexists].
  pose proof (Hwf s n p Hn Hp). apply IH; lia.
Qed.

Lemma empty_parent_heap_built :
  ('(h0, g) ← __init__ 1 [] (VDict [("k", VInt 1)]) None;
   '(h1, p) ← __init__ 1 h0 (VDict []) (Some g);
   '(h2, s) ← __init__ 1 h1 VNone (Some p);
   Ok (h2, g, p, s))
  = Ok (empty_parent_heap, 0%nat, 1%nat, 2%nat).
Proof. reflexivity. Qed.

(** C2 (the code departs from the claim). The child of an empty store whose
    own parent binds "k": [get] on the child returns the default, whereas
    [get] on its parent returns the grandparent's value, and so does
    [__getitem__] on the child.  This holds with any amount of fuel that
    lets the three lookups finish. *)
Theorem get_stops_at_empty_parent (n : nat) (default : value) :
  get (3 + n) empty_parent_heap 2 (KStr "k") default = Ok default ∧
  get (3 + n) empty_parent_heap 1 (KStr "k") default = Ok (VInt 1) ∧
  __getitem__ (3 + n) empty_parent_heap 2 (KStr "k") = Ok (VInt 1).
Proof. repeat split. Qed.

(** *** Paths *)

(** C9. [get] with the empty path raises [KeyError]; indexing with the
    empty path returns the store itself, so that indexing the result with
    any key is indexing the store with that key. *)
Theorem empty_path fuel h s default (K : key) :
  get fuel h s (KPath []) default = Raise KeyError ∧
  __getitem__ fuel h s (KPath []) = Ok (VRef s) ∧
  (x ← __getitem__ fuel h s (KPath []); value_getitem fuel h x K)
  = __getitem__ fuel h s K.
Proof. repeat split. Qed.

(** Where [get] itself reaches both nested stores, that is when [S.get(a)]
    is a nested store [A] and [A.get(b)] is a nested store [B], the three
    ways of resolving the path agree: [S.get([a, b, c], d)],
    [S.get(a).get([b, c], d)] and [S.get(a).get(b).get([c], d)] are one and
    the same result, namely [B.get(c, d)]. *)
Theorem get_path_associative fuel h s a b c (d : value) (A B : nat) :
  get fuel h s (KStr a) VNone = Ok (VRef A) →
  get fuel h A (KStr b) VNone = Ok (VRef B) →
  get fuel h s (KPath [a; b; c]) d
  = (x ← get fuel h s (KStr a) VNone;
     value_get fuel h x (KPath [b; c]) d) ∧
  (x ← get fuel h s (KStr a) VNone;
   value_get fuel h x (KPath [b; c]) d)
  = (x ← get fuel h s (KStr a) VNone;
     y ← value_get fuel h x (KStr b) VNone;
     value_get fuel h y (KPath [c]) d) ∧
  get fuel h s (KPath [a; b; c]) d = get fuel h B (KStr c) d.
Proof.
  intros Ha Hb.
  assert (getitem_key fuel h s a = Ok (VRef A)) as Ha'
    by (by eapply get_key_getitem).
  assert (getitem_key fuel h A b = Ok (VRef B)) as Hb'
    by (by eapply get_key_getitem).
  rewrite Ha. cbn [mbind result_bind value_get].
  rewrite Hb. cbn [mbind result_bind value_get].
  cbn [get get_list] in *.
  rewrite Ha'. cbn [mbind result_bind]. rewrite Hb'.
  cbn [mbind result_bind]. done.
Qed.

(** [ScopedDict({"button": {"down": {}}})]: the root is 0, [root["button"]]
    is 4 and [root["button"]["down"]] is 6; the other stores are the
    intermediate copies that [__setitem__] wrapped once more. *)
Lemma nested_heap_built :
  __init__ 3 [] (VDict [("button", VDict [("down", VDict [])])]) None
  = Ok (nested_heap, 0%nat).
Proof. reflexivity. Qed.

Lemma get_path_associative_witness :
  get 3 nested_heap 6 (KPath ["button"; "down"; "color"]) (VInt 7)
  = Ok (VInt 7) ∧
  (x ← get 3 nested_heap 6 (KStr "button") VNone;
   y ← value_get 3 nested_heap x (KStr "down") VNone;
   value_get 3 nested_heap y (KPath ["color"]) (VInt 7))
  = Ok (VInt 7).
Proof.
  destruct (get_path_associative 3 nested_heap 6 "button" "down" "color"
              (VInt 7) 4 6 eq_refl eq_refl) as (H1 & H2 & H3).
  split.
  - rewrite H3. reflexivity.
  - rewrite <- H2, <- H1, H3. reflexivity.
Defined.

Lemma detached_heap_built :
  ('(h0, root) ← __init__ 3 []
                   (VDict [("a", VDict [("b", VDict [("c", VInt 7)])])]) None;
   '(h1, p) ← __init__ 1 h0 (VDict []) (Some root);
   '(h2, s) ← __init__ 1 h1 VNone (Some p);
   Ok (h2, root, p, s))
  = Ok (detached_heap, 0%nat, 7%nat, 8%nat).
Proof. vm_compute. reflexivity. Qed.

(** C8 (the code departs from the claim). For the child of an empty store
    whose parent is the root [{"a": {"b": {"c": 7}}}], every segment of the
    path resolves through the scopes: indexing the child with "a" gives the
    nested store, and [get(["a", "b", "c"], 99)] is 7.  Yet [get("a")] on
    the child stops at its empty parent and returns [None], so that
    [get("a").get(["b", "c"], 99)] and [get("a").get("b").get(["c"], 99)]
    raise [AttributeError]: the three ways of resolving the path differ. *)
Theorem get_path_not_associative (n : nat) :
  __getitem__ (3 + n) detached_heap 8 (KStr "a") = Ok (VRef 4) ∧
  get (3 + n) detached_heap 8 (KPath ["a"; "b"; "c"]) (VInt 99)
  = Ok (VInt 7) ∧
  get (3 + n) detached_heap 8 (KStr "a") VNone = Ok VNone ∧
  (x ← get (3 + n) detached_heap 8 (KStr "a") VNone;
   value_get (3 + n) detached_heap x (KPath ["b"; "c"]) (VInt 99))
  = Raise AttributeError ∧
  (x ← get (3 + n) detached_heap 8 (KStr "a") VNone;
   y ← value_get (3 + n) detached_heap x (KStr "b") VNone;
   value_get (3 + n) detached_heap y (KPath ["c"]) (VInt 99))
  = Raise AttributeError.
Proof. repeat split; vm_compute; reflexivity. Qed.

(** C10. When [a] is not among the items of [S] and the nearest ancestor
    binding [a] binds it to a nested store [A], every path operation on
    [[a, b]] goes through [A]: indexing, [get], [get_path] and [set_path]
    on [S] with [[a, b]] are the single-key operation with [b] on [A]. *)
Theorem intermediate_segment_falls_back fuel h s a b (P A d : nat)
    (default v : value) :
  binds h a s P (VRef A) d → (0 < d)%nat → (d < fuel)%nat →
  __getitem__ fuel h s (KStr a) = Ok (VRef A) ∧
  __getitem__ fuel h s (KPath [a; b]) = __getitem__ fuel h A (KStr b) ∧
  get fuel h s (KPath [a; b]) default = get fuel h A (KStr b) default ∧
  get_path fuel h s [a; b] default = get fuel h A (KStr b) default ∧
  set_path fuel h s [a; b] v = __setitem__ fuel h A b v.
Proof.
  intros Hb _ Hf.
  pose proof (binds_getitem fuel h a s P (VRef A) d Hb Hf) as Hg.
  cbn [__getitem__ getitem_path get get_list get_path set_path].
  rewrite Hg. done.
Qed.

Lemma intermediate_segment_falls_back_witness :
  __getitem__ 3 nested_heap 6 (KStr "button") = Ok (VRef 4) ∧
  __getitem__ 3 nested_heap 6 (KPath ["button"; "down"]) = Ok (VRef 6) ∧
  get 3 nested_heap 6 (KPath ["button"; "up"]) (VInt 7) = Ok (VInt 7) ∧
  set_path 3 nested_heap 6 ["button"; "up"] (VInt 7)
  = __setitem__ 3 nested_heap 4 "up" (VInt 7).
Proof.
  assert (binds nested_heap "button" 6 0 (VRef 4) 2) as Hb.
  { eapply binds_up; [reflexivity..|].
    eapply binds_up; [reflexivity..|].
    eapply binds_here; reflexivity. }
  assert (0 < 2)%nat as H0 by lia.
  assert (2 < 3)%nat as H3 by lia.
  pose proof (intermediate_segment_falls_back 3 nested_heap 6 "button" "down"
                0 4 2 (VInt 7) (VInt 7) Hb H0 H3) as (G1 & G2 & _).
  pose proof (intermediate_segment_falls_back 3 nested_heap 6 "button" "up"
                0 4 2 (VInt 7) (VInt 7) Hb H0 H3) as (_ & _ & G3 & _ & G5).
  split; [exact G1|]. split; [rewrite G2; reflexivity|].
  split; [rewrite G3; reflexivity|]. exact G5.
Defined.

(** *** Assignment *)

Lemma for_each_invariant {A B : Type} (I : A → Prop)
    (body : A → B → result A) (l : list B) (a a' : A) :
  (∀ x y x', I x → body x y = Ok x' → I x') →
  I a → for_each body a l = Ok a' → I a'.
Proof.
  intros Hbody. revert a. induction l as [|y l IH]; intros a Ha Hrun.
  - cbn in Hrun. by injection Hrun as <-.
  - cbn [for_each] in Hrun.
    destruct (body a y) as [x|] eqn:Hb; [|discriminate].
    cbn in Hrun. eapply IH; [|exact Hrun]. by eapply Hbody.
Qed.

(** A store that succeeds rewrites exactly one node, keeping its parent. *)
Lemma store_spec h s k v h' :
  store h s k v = Ok h' →
  ∃ n, h !! s = Some n ∧
       h' = <[s := {| parent := parent n;
                      items := dict_set k v (items n) |}]> h.
Proof.
  unfold store. destruct (h !! s) as [n|]; [|discriminate].
  intros [= <-]. by exists n.
Qed.

(** Stores at or beyond the end of a prefix leave the prefix alone. *)
Lemma store_keeps_prefix h0 h s k v h' :
  store h s k v = Ok h' → h0 `prefix_of` h → (length h0 ≤ s)%nat →
  h0 `prefix_of` h' ∧ length h' = length h.
Proof.
  intros (n & _ & ->)%store_spec [ext ->] Hs. split.
  - rewrite insert_app_r_alt by done. by apply prefix_app_r.
  - by rewrite length_insert.
Qed.

(** [ScopedDict(arg, parent)] only appends: the new instance sits right
    after the stores that existed, all of which are left as they were. *)
Lemma init_keeps_prefix fuel h arg par h' a :
  __init__ fuel h arg par = Ok (h', a) →
  a = length h ∧ h `prefix_of` h' ∧ (length h < length h')%nat.
Proof.
  revert h arg par h' a.
  induction fuel as [|fuel IH]; intros h arg par h' a Hrun; [discriminate|].
  cbn [__init__] in Hrun.
  destruct (items_of h arg) as [its|]; [|discriminate].
  cbn [mbind result_bind] in Hrun.
  match type of Hrun with
  | context [for_each ?body ?start its] =>
      destruct (for_each body start its) as [hf|] eqn:Hloop; [|discriminate];
      apply (for_each_invariant
               (fun hc => h `prefix_of` hc ∧ (length h < length hc)%nat))
        in Hloop
  end.
  - cbn in Hrun. injection Hrun as <- <-. by destruct Hloop.
  - clear Hrun. intros hc [k v] hc' [Hpre Hlen] Hbody.
    assert (∀ hx w hy,
              h `prefix_of` hx → (length h < length hx)%nat →
              setitem_with (__init__ fuel) hx (length h) k w = Ok hy →
              h `prefix_of` hy ∧ (length h < length hy)%nat) as Hset.
    { intros hx w hy Hp Hl Hs. unfold setitem_with in Hs.
      destruct (is_dict w).
      - destruct (__init__ fuel hx w (Some (length h)))
          as [[h1 c]|] eqn:Hi; [|discriminate].
        cbn in Hs. apply IH in Hi as (_ & Hp1 & Hl1).
        eapply (store_keeps_prefix h) in Hs as [? Hl2];
          [|by etrans|done]. split; [done|lia].
      - eapply (store_keeps_prefix h) in Hs as [? Hl2]; [|done..].
        split; [done|lia]. }
    destruct (is_dict v).
    + destruct (__init__ fuel hc v (Some (length h)))
        as [[h1 c]|] eqn:Hi; [|discriminate].
      cbn [mbind result_bind] in Hbody. apply IH in Hi as (_ & Hp1 & Hl1).
      eapply Hset; [| |exact Hbody]; [by etrans|lia].
    + by eapply Hset.
  - split; [by apply prefix_app_r|]. rewrite length_app. simpl. lia.
Qed.

(** [__setitem__] changes one existing store, and of that store only the
    binding of the key. *)
Lemma setitem_frame fuel h T n k v h' :
  h !! T = Some n →
  __setitem__ fuel h T k v = Ok h' →
  (∀ x, x ≠ T → (x < length h)%nat → h' !! x = h !! x) ∧
  ∃ n', h' !! T = Some n' ∧
        parent n' = parent n ∧
        (∀ k', k' ≠ k →
               dict_lookup k' (items n') = dict_lookup k' (items n)) ∧
        (∃ w, dict_lookup k (items n') = Some w ∧
              (is_dict v = false → w = v)).
Proof.
  unfold __setitem__, setitem_with. intros Hn Hrun.
  assert (∃ h1 w, h `prefix_of` h1 ∧ store h1 T k w = Ok h' ∧
                  (is_dict v = false → w = v)) as (h1 & w & Hpre & Hst & Hw).
  { destruct (is_dict v).
    - destruct (__init__ fuel h v (Some T)) as [[h1 c]|] eqn:Hi;
        [|discriminate].
      cbn in Hrun. apply init_keeps_prefix in Hi as (_ & Hp & _).
      by exists h1, (VRef c).
    - by exists h, v. }
  clear Hrun. apply store_spec in Hst as (n1 & Hn1 & ->).
  pose proof (prefix_lookup_Some _ _ _ _ Hn Hpre) as Hn'.
  assert (n1 = n) as -> by congruence.
  split.
  - intros x Hx Hlt. rewrite list_lookup_insert_ne by done.
    destruct (lookup_lt_is_Some_2 h x Hlt) as [nx Hnx].
    rewrite Hnx. by eapply prefix_lookup_Some.
  - eexists. split.
    { apply list_lookup_insert_eq. by eapply lookup_lt_Some. }
    split; [done|]. split.
    + intros k' Hk'. by apply dict_lookup_set_ne.
    + exists w. split; [apply dict_lookup_set_eq|done].
Qed.

(** A value that is no dict is stored as it is, and storing it cannot
    fail. *)
Lemma setitem_plain fuel h T n k v :
  h !! T = Some n → is_dict v = false →
  __setitem__ fuel h T k v =
    Ok (<[T := {| parent := parent n;
                  items := dict_set k v (items n) |}]> h).
Proof.
  intros Hn Hv. unfold __setitem__, setitem_with, store.
  by rewrite Hv, Hn.
Qed.

(** [set_path] is navigation along the leading segments followed by one
    local assignment of the last segment. *)
Lemma set_path_navigate fuel h s segs k v :
  set_path fuel h s (segs ++ [k]) v
  = (T ← navigate fuel h s segs; __setitem__ fuel h T k v).
Proof.
  revert s. induction segs as [|k0 segs IH]; intros s; [done|].
  cbn [navigate]. rewrite <- app_comm_cons. cbn [set_path].
  assert (∃ k1 r, segs ++ [k] = k1 :: r) as (k1 & r & Heq)
    by (destruct segs; simpl; eauto).
  rewrite Heq.
  destruct (getitem_key fuel h s k0) as [t|]; [|done].
  cbn [mbind result_bind]. rewrite <- Heq.
  destruct t; first [apply IH | done].
Qed.

(** In [nested_heap], store 4 is the parent of store 6, and
    [set_path(["button", "x"], 5)] on store 6 adds the key "x" to store 4:
    "button" is not a key of 6 nor of 4, the root binds it to 4. *)
Lemma set_path_writes_into_parent :
  ∃ h',
    set_path 3 nested_heap 6 ["button"; "x"] (VInt 5) = Ok h' ∧
    ancestor nested_heap 6 4 ∧
    nested_heap !! 4%nat
    = Some {| parent := Some 0%nat; items := [("down", VRef 6)] |} ∧
    h' !! 4%nat
    = Some {| parent := Some 0%nat;
              items := [("down", VRef 6); ("x", VInt 5)] |}.
Proof.
  eexists. split; [reflexivity|]. split; [|split; reflexivity].
  eapply ancestor_parent; reflexivity.
Qed.

(** A dict value is wrapped in new stores appended to the heap; the store
    written is again the only existing one that changes. *)
Example set_path_dict_value :
  set_path 3 nested_heap 6 ["button"; "x"] (VDict [("c", VInt 1)])
  = Ok (<[4%nat := {| parent := Some 0%nat;
                      items := [("down", VRef 6); ("x", VRef 7)] |}]>
          nested_heap
        ++ [{| parent := Some 4%nat; items := [("c", VInt 1)] |}]).
Proof. reflexivity. Qed.

(** C3 (amended). [set_path] on a non-empty path is navigation along the
    leading segments, with scope fallback at every segment, followed by one
    local assignment of the last segment; for a single segment the store
    reached is [S] itself.  When the store reached exists, a value that is no
    dict is always stored, and whenever [set_path] succeeds every other
    store that existed is unchanged, while the store reached keeps its
    parent and all its other keys and binds the last segment.  The store
    reached may be an ancestor of [S]. *)
Theorem set_path_writes_reached_store fuel h s segs k v :
  set_path fuel h s (segs ++ [k]) v
  = (T ← navigate fuel h s segs; __setitem__ fuel h T k v) ∧
  navigate fuel h s [] = Ok s ∧
  ∀ T n,
    navigate fuel h s segs = Ok T → h !! T = Some n →
    (is_dict v = false →
     set_path fuel h s (segs ++ [k]) v
     = Ok (<[T := {| parent := parent n;
                     items := dict_set k v (items n) |}]> h)) ∧
    ∀ h',
      set_path fuel h s (segs ++ [k]) v = Ok h' →
      (∀ x, x ≠ T → (x < length h)%nat → h' !! x = h !! x) ∧
      ∃ n', h' !! T = Some n' ∧
            parent n' = parent n ∧
            (∀ k', k' ≠ k →
                   dict_lookup k' (items n') = dict_lookup k' (items n)) ∧
            ∃ w, dict_lookup k (items n') = Some w ∧
                 (is_dict v = false → w = v).
Proof.
  split; [apply set_path_navigate|]. split; [done|].
  intros T n Hnav Hn. rewrite set_path_navigate, Hnav.
  cbn [mbind result_bind]. split.
  - intros Hv. by apply setitem_plain.
  - intros h' Hset. by eapply setitem_frame.
Qed.

Lemma set_path_writes_reached_store_witness :
  set_path 3 nested_heap 6 ["button"; "x"] (VInt 5)
  = Ok (<[4%nat := {| parent := Some 0%nat;
                      items := [("down", VRef 6); ("x", VInt 5)] |}]>
          nested_heap) ∧
  ∀ h', set_path 3 nested_heap 6 ["button"; "x"] (VInt 5) = Ok h' →
        h' !! 6%nat = nested_heap !! 6%nat ∧
        h' !! 0%nat = nested_heap !! 0%nat.
Proof.
  destruct (set_path_writes_reached_store 3 nested_heap 6 ["button"] "x"
              (VInt 5)) as (_ & _ & H).
  destruct (H 4%nat {| parent := Some 0%nat; items := [("down", VRef 6)] |}
              eq_refl eq_refl) as [Hplain Hframe].
  split; [exact (Hplain eq_refl)|].
  intros h' Hset. destruct (Hframe h' Hset) as [Hother _].
  split; apply Hother; simpl; lia.
Defined.

End ScopedDictFacts.

(** ** Themes *)

Module ThemeFacts.

Import ScopedDict Theme.

Section Loader.

Variable loader : string → option (Z * Z).

Implicit Types (st : state) (f : string).

Lemma get_texture_cached st f t :
  dict_lookup f (_textures st) = Some t →
  _get_texture loader st f = Ok (st, t).
Proof. intros Hc. unfold _get_texture. by rewrite Hc. Qed.

(** What [_get_texture] does to the state: nothing when the filename is
    cached; else one more texture, one more cache entry, one more decode. *)
Lemma get_texture_spec st f st1 t :
  _get_texture loader st f = Ok (st1, t) →
  dict_lookup f (_textures st1) = Some t ∧
  heap st1 = heap st ∧
  ((dict_lookup f (_textures st) = Some t ∧ st1 = st) ∨
   (dict_lookup f (_textures st) = None ∧ t = length (textures st) ∧
    (∃ x, textures st1 = textures st ++ [x]) ∧
    _textures st1 = dict_set f t (_textures st) ∧
    decoded st1 = decoded st ++ [f])).
Proof.
  unfold _get_texture.
  destruct (dict_lookup f (_textures st)) as [t0|] eqn:Hc.
  - intros [= <- <-]. split; [done|]. split; [done|]. by left.
  - destruct (loader f) as [[w hh]|]; [|discriminate].
    intros [= <- <-]. cbn. split; [apply dict_lookup_set_eq|].
    split; [done|]. right. repeat split; eauto.
Qed.

Lemma get_texture_cache_ok st f st1 t :
  cache_ok st → _get_texture loader st f = Ok (st1, t) → cache_ok st1.
Proof.
  intros (Hlt & Hdec & Hnd) Hg.
  apply get_texture_spec in Hg
    as (_ & _ & [[_ ->]|(Hnone & -> & [x Htx] & Hcache & Hd)]); [done|].
  unfold cache_ok. rewrite Htx, Hcache, Hd. split; [|split].
  - intros f' t'. rewrite length_app. cbn.
    destruct (decide (f' = f)) as [->|Hne].
    + rewrite dict_lookup_set_eq. intros [= <-]. lia.
    + rewrite dict_lookup_set_ne by done. intros Ht'%Hlt. lia.
  - intros f' [Hin|Hin%list_elem_of_singleton]%elem_of_app.
    + destruct (decide (f' = f)) as [->|Hne].
      * rewrite dict_lookup_set_eq. by eexists.
      * rewrite dict_lookup_set_ne by done. by apply Hdec.
    + subst f'. rewrite dict_lookup_set_eq. by eexists.
  - apply NoDup_app. split; [done|]. split; [|apply NoDup_singleton].
    intros f' Hin ->%list_elem_of_singleton.
    apply Hdec in Hin as [? Hin]. congruence.
Qed.

(** What [_get_texture_region] does: after [_get_texture], one more texture
    object, which is the one returned. *)
Lemma get_texture_region_spec st f x y w h st2 r :
  _get_texture_region loader st f x y w h = Ok (st2, r) →
  ∃ st1 t,
    _get_texture loader st f = Ok (st1, t) ∧
    r = length (textures st1) ∧
    length (textures st2) = S (length (textures st1)) ∧
    _textures st2 = _textures st1 ∧
    decoded st2 = decoded st1 ∧
    heap st2 = heap st1.
Proof.
  unfold _get_texture_region, get_region.
  destruct (_get_texture loader st f) as [[st1 t]|] eqn:Hg; [|discriminate].
  cbn [mbind result_bind].
  destruct (textures st1 !! t) as [whole|] eqn:Ht; [|discriminate].
  cbn [mbind result_bind textures].
  destruct ((textures st1 ++ _) !! t); [|discriminate].
  destruct ((textures st1 ++ _) !! length (textures st1)); [|discriminate].
  intros [= <- <-]. exists st1, t. cbn.
  rewrite length_insert, length_app. cbn. repeat split; lia.
Qed.

Lemma get_texture_region_cache_ok st f x y w h st2 r :
  cache_ok st → _get_texture_region loader st f x y w h = Ok (st2, r) →
  cache_ok st2.
Proof.
  intros Hok (st1 & t & Hg & _ & Hlen & Hc & Hd & _)%get_texture_region_spec.
  eapply get_texture_cache_ok in Hg as (Hlt & Hdec & Hnd); [|done].
  unfold cache_ok. rewrite Hc, Hd, Hlen. split; [|done].
  intros f' t' Ht'%Hlt. lia.
Qed.

(** With a cache in order, [_get_texture] and [_get_texture_region] return
    as soon as the file can be decoded or is cached. *)
Lemma get_texture_region_returns st f x y w h :
  cache_ok st →
  is_Some (loader f) ∨ is_Some (dict_lookup f (_textures st)) →
  ∃ st2 r, _get_texture_region loader st f x y w h = Ok (st2, r).
Proof.
  intros Hok Hsrc.
  assert (∃ st1 t, _get_texture loader st f = Ok (st1, t))
    as (st1 & t & Hg).
  { unfold _get_texture.
    destruct (dict_lookup f (_textures st)); [by eexists _, _|].
    destruct Hsrc as [[[? ?] ->]|[? ?]]; [by eexists _, _|done]. }
  pose proof (get_texture_cache_ok _ _ _ _ Hok Hg) as (Hlt & _ & _).
  apply get_texture_spec in Hg as Hs. destruct Hs as (Hc & _ & _).
  apply Hlt in Hc.
  unfold _get_texture_region, get_region. rewrite Hg.
  cbn [mbind result_bind].
  destruct (lookup_lt_is_Some_2 _ _ Hc) as [whole Hw]. rewrite Hw.
  cbn [mbind result_bind textures].
  rewrite lookup_app_l, Hw by done.
  rewrite list_lookup_middle by done. by eexists _, _.
Qed.

(** C4 (amended). The cache key is the filename alone.  With the cache in
    order: a second request of a whole texture returns the very same texture
    object and leaves the state, hence the list of decoded files, as it is;
    a region request returns a texture object that did not exist before, a
    further region request for the same filename, whatever the region,
    returns yet another object, and it decodes nothing and caches nothing.
    Both operations keep the cache in order, so that no filename is ever
    decoded twice. *)
Theorem texture_cache_by_filename st f :
  cache_ok st →
  (∀ st1 t1,
     _get_texture loader st f = Ok (st1, t1) →
     cache_ok st1 ∧ _get_texture loader st1 f = Ok (st1, t1)) ∧
  (∀ x y w h st1 t1,
     _get_texture_region loader st f x y w h = Ok (st1, t1) →
     cache_ok st1 ∧ (length (textures st) ≤ t1)%nat ∧
     ∀ x' y' w' h',
       ∃ st2 t2,
         _get_texture_region loader st1 f x' y' w' h' = Ok (st2, t2) ∧
         t2 ≠ t1 ∧ decoded st2 = decoded st1 ∧
         _textures st2 = _textures st1).
Proof.
  intros Hok. split.
  - intros st1 t1 Hg. split; [by eapply get_texture_cache_ok|].
    apply get_texture_spec in Hg as (Hc & _). by apply get_texture_cached.
  - intros x y w h st1 t1 Hr.
    pose proof (get_texture_region_cache_ok _ _ _ _ _ _ _ _ Hok Hr) as Hok1.
    split; [done|].
    apply get_texture_region_spec in Hr
      as (sta & t & Hg & -> & Hlen & Hc & Hd & _).
    apply get_texture_spec in Hg as (Hca & _ & Hcase).
    split.
    { destruct Hcase as [[_ ->]|(_ & _ & [? ->] & _)]; [done|].
      rewrite length_app. lia. }
    intros x' y' w' h'.
    assert (dict_lookup f (_textures st1) = Some t) as Hc1 by congruence.
    destruct (get_texture_region_returns st1 f x' y' w' h' Hok1)
      as (st2 & t2 & Hr2); [right; by eexists|].
    exists st2, t2. split; [done|].
    apply get_texture_region_spec in Hr2
      as (stb & t' & Hg2 & -> & _ & Hc2 & Hd2 & _).
    rewrite (get_texture_cached _ _ _ Hc1) in Hg2.
    injection Hg2 as <- <-. split; [lia|]. by split.
Qed.

(** Whatever the loader and the state, an "image" entry whose value is a
    filename makes [_update_with_images] raise: either the file is missing,
    or the template constructor fails on the theme's [height]. *)
Lemma image_filename_entry_never_stored fuel st self target its k f :
  (k, VStr f) ∈ its → String.prefix "image" k = true →
  ∀ st', _update_with_images loader fuel st self target (VDict its) ≠ Ok st'.
Proof.
  intros Hin Hk st'. destruct fuel as [|fuel]; [done|].
  cbn [_update_with_images items_of mbind result_bind].
  revert st. induction its as [|[k0 v0] its IH]; intros st.
  - by apply elem_of_nil in Hin.
  - cbn [for_each].
    apply elem_of_cons in Hin as [[= <- <-]|Hin].
    + rewrite Hk. cbn [is_dict filename_of mbind result_bind].
      destruct (_get_texture loader st f) as [[st1 t]|]; [|done].
      done.
    + match goal with
      | |- context [for_each ?body _ its] =>
          destruct (body st (k0, v0)) as [st1|]; [|done]
      end.
      cbn [mbind result_bind]. by apply IH.
Qed.

End Loader.

Lemma texture_cache_by_filename_witness :
  (∃ st1 t1,
     _get_texture loader32 no_textures "a.png" = Ok (st1, t1) ∧
     _get_texture loader32 st1 "a.png" = Ok (st1, t1)) ∧
  (∃ st1 t1 st2 t2,
     _get_texture_region loader32 no_textures "a.png" 0 0 8 8 = Ok (st1, t1) ∧
     _get_texture_region loader32 st1 "a.png" 0 0 8 8 = Ok (st2, t2) ∧
     t2 ≠ t1 ∧ decoded st2 = decoded st1).
Proof.
  assert (cache_ok no_textures) as Hok.
  { split; [|split]; [intros ? ? [=]|intros ? []%elem_of_nil|constructor]. }
  destruct (texture_cache_by_filename loader32 no_textures "a.png" Hok)
    as [Hwhole Hregion].
  split.
  - eexists _, _. split; [reflexivity|].
    exact (proj2 (Hwhole _ _ eq_refl)).
  - destruct (Hregion 0 0 8 8 _ _ eq_refl) as (_ & _ & Hnext).
    destruct (Hnext 0 0 8 8) as (st2 & t2 & Hr & Hne & Hd & _).
    eexists _, _, st2, t2. split; [reflexivity|]. by repeat split.
Defined.

(** Two image mappings with the same source and the same region: the theme
    stores two templates whose textures are two different objects (1 and 2),
    both regions of the one decoded texture 0. *)
Lemma same_region_distinct_textures :
  let dictionary :=
    VDict [("image_a", region_spec); ("image_b", region_spec)] in
  built_entry dictionary "image_a"
  = Ok (VTextureTemplate (VTexture 1) (VInt 8) (VInt 8)) ∧
  built_entry dictionary "image_b"
  = Ok (VTextureTemplate (VTexture 2) (VInt 8) (VInt 8)) ∧
  built_decoded dictionary = Ok ["a.png"].
Proof. repeat split; vm_compute; reflexivity. Qed.

(** The same two mappings without a region share the cached texture 0. *)
Example same_source_same_texture :
  let dictionary :=
    VDict [("image_a", whole_spec); ("image_b", whole_spec)] in
  built_entry dictionary "image_a"
  = Ok (VTextureTemplate (VTexture 0) (VInt 32) (VInt 32)) ∧
  built_entry dictionary "image_b"
  = Ok (VTextureTemplate (VTexture 0) (VInt 32) (VInt 32)) ∧
  built_decoded dictionary = Ok ["a.png"].
Proof. repeat split; vm_compute; reflexivity. Qed.

(** C5 (the code departs from the claim). A theme whose "image" entry is a
    plain filename cannot be built: the template constructor is handed the
    theme as its texture and the texture as its width, and reading the
    theme's [height] raises [AttributeError].  No template is stored. *)
Theorem image_filename_entry_raises (n : nat) :
  Theme.__init__ loader32 (S n) [] [] (VDict [("image", VStr "a.png")])
  = Raise AttributeError.
Proof. vm_compute. reflexivity. Qed.

(** The mapping form of the same entry stores a template of the fetched
    texture, with the texture's size. *)
Example image_mapping_entry_template :
  built_entry (VDict [("image", whole_spec)]) "image"
  = Ok (VTextureTemplate (VTexture 0) (VInt 32) (VInt 32)).
Proof. vm_compute. reflexivity. Qed.

End ThemeFacts.

(** * Further properties *)

(** ** Life cycle of a graphic element *)

Module LifecycleFacts.

Import Element Batch.

Lemma live_app b vl :
  live (b ++ [vl]) = (live b + (if vl_deleted vl then 0 else 1))%nat.
Proof.
  unfold live. rewrite List.filter_app, length_app. cbn.
  by destruct (vl_deleted vl).
Qed.

Lemma live_insert b i vl vl' :
  b !! i = Some vl →
  (live (<[i := vl']> b) + (if vl_deleted vl then 0 else 1))%nat
  = (live b + (if vl_deleted vl' then 0 else 1))%nat.
Proof.
  unfold live. revert i. induction b as [|x b IH]; intros i Hi; [done|].
  destruct i as [|i].
  - injection Hi as ->. cbn [insert list_insert List.filter].
    destruct (vl_deleted vl), (vl_deleted vl'); cbn; lia.
  - specialize (IH i Hi).
    change (<[S i := vl']> (x :: b)) with (x :: <[i := vl']> b).
    cbn [List.filter]. destruct (negb (vl_deleted x)); cbn [length]; lia.
Qed.

(** X1. The number of coordinates [_get_vertices] returns is always twice
    the number of vertices [_load] asks the batch for. *)
Theorem vertices_match_count (e : element) :
  length (_get_vertices e) = (2 * vertex_count (el_kind e))%nat.
Proof.
  unfold _get_vertices. destruct (el_kind e) as [?|? ? [[[? ?] ?] ?] ?]; done.
Qed.

Lemma c_int_fits (vs : list Z) : fits vs → c_int <$> vs = vs.
Proof.
  induction 1 as [|z vs Hz _ IH]; [done|]. cbn [fmap list_fmap].
  f_equal; [|exact IH]. unfold c_int.
  rewrite Z.mod_small by lia. lia.
Qed.

(** X2. An element that owns a live vertex list can be unloaded, which
    retires exactly that vertex list, clears the group and makes a second
    [unload] fail; a following [_load] succeeds again, on a fresh handle at
    the end of the batch, which holds the element's current geometry as
    32-bit integers (the geometry itself when it fits), but the element's
    group stays cleared.  All other vertex lists are untouched. *)
Theorem unload_then_load (e : element) (b : batch) (hd : nat) :
  owns e b hd →
  ∃ e1 b1,
    unload e b = Ok (e1, b1) ∧
    S (live b1) = live b ∧
    unload e1 b1 = Raise AttributeError ∧
    ∃ e2 b2,
      _load e1 b1 = Ok (e2, b2) ∧
      owns e2 b2 (length b) ∧
      live b2 = live b ∧
      _group e2 = None ∧
      (vl_vertices <$> b2 !! length b) = Some (c_int <$> _get_vertices e) ∧
      (fits (_get_vertices e) →
       (vl_vertices <$> b2 !! length b) = Some (_get_vertices e)) ∧
      (∃ vl, b2 !! hd = Some vl ∧ vl_deleted vl = true) ∧
      ∀ i, i ≠ hd → (i < length b)%nat → b2 !! i = b !! i.
Proof.
  intros [Hv (vl & Hvl & Hlive)].
  pose proof (lookup_lt_Some _ _ _ Hvl) as Hlt.
  pose proof (live_insert b hd vl
                {| vl_count := vl_count vl; vl_vertices := vl_vertices vl;
                   vl_deleted := true |} Hvl) as Hl.
  rewrite Hlive in Hl. cbn in Hl.
  unfold unload. rewrite Hv, Hvl. eexists _, _. split; [done|].
  split; [lia|]. split; [done|].
  unfold _load. cbn [_vertex_list]. eexists _, _. split; [done|].
  rewrite !length_insert.
  match goal with
  | |- context [(?l ++ [?n]) !! length b] =>
      assert ((l ++ [n]) !! length b = Some n) as Hnew
  end.
  { rewrite lookup_app_r by (rewrite length_insert; lia).
    by rewrite length_insert, Nat.sub_diag. }
  split; [split; [done|]; eexists; split; [exact Hnew|done]|].
  split; [rewrite live_app; cbn; lia|].
  split; [done|].
  split; [by rewrite Hnew|].
  split.
  { intros Hfit. rewrite Hnew. cbn [fmap option_fmap option_map vl_vertices].
    f_equal. by apply c_int_fits. }
  split.
  { eexists. split; [|shelve].
    rewrite lookup_app_l by (rewrite length_insert; lia).
    by apply list_lookup_insert_eq. }
  Unshelve. 2: done.
  intros i Hi Hlti.
  rewrite lookup_app_l by (rewrite length_insert; lia).
  by apply list_lookup_insert_ne.
Qed.

Lemma unload_then_load_witness :
  let e := {| el_kind := quad32; _x := 0; _y := 0; width := 32; height := 32;
              _group := Some 0%nat; _vertex_list := Some 0%nat |} in
  let vl := {| vl_count := 4; vl_vertices := [0; 0; 32; 0; 32; 32; 0; 32];
               vl_deleted := false |} in
  ∃ e1 b1 e2 b2,
    unload e [vl] = Ok (e1, b1) ∧ _load e1 b1 = Ok (e2, b2) ∧
    _vertex_list e2 = Some 1%nat ∧ live b2 = 1%nat.
Proof.
  intros e vl.
  assert (owns e [vl] 0) as Hown by (split; [done|by exists vl]).
  destruct (unload_then_load e [vl] 0 Hown)
    as (e1 & b1 & Hu & _ & _ & e2 & b2 & Hl & [Hv _] & Hlive & _).
  exists e1, b1, e2, b2. by repeat split.
Defined.

(** X3. While the element owns a live vertex list, [update] stores the
    bounds and rewrites that vertex list with the geometry of the new
    bounds, kept as 32-bit integers (the geometry itself when it fits);
    nothing else in the batch changes, the element keeps owning the same
    handle, and of two updates in a row only the last one counts. *)
Theorem update_rewrites_own_vertices (e : element) (b : batch) (hd : nat)
    (x y w h : Z) :
  owns e b hd →
  ∃ e' b',
    update e b x y w h = Ok (e', b') ∧
    (_x e', _y e', width e', height e') = (x, y, w, h) ∧
    el_kind e' = el_kind e ∧ _group e' = _group e ∧
    owns e' b' hd ∧
    (vl_vertices <$> b' !! hd) = Some (c_int <$> _get_vertices e') ∧
    (fits (_get_vertices e') →
     (vl_vertices <$> b' !! hd) = Some (_get_vertices e')) ∧
    live b' = live b ∧
    (∀ i, i ≠ hd → b' !! i = b !! i) ∧
    ∀ x2 y2 w2 h2, update e' b' x2 y2 w2 h2 = update e b x2 y2 w2 h2.
Proof.
  intros [Hv (vl & Hvl & Hlive)].
  pose proof (lookup_lt_Some _ _ _ Hvl) as Hlt.
  unfold update. cbn [_vertex_list]. rewrite Hv, Hvl.
  eexists _, _. split; [done|]. split; [done|]. split; [done|].
  split; [done|]. split.
  { split; [done|]. eexists. split; [by apply list_lookup_insert_eq|done]. }
  split; [by rewrite list_lookup_insert_eq|]. split.
  { intros Hfit. rewrite list_lookup_insert_eq by done.
    cbn [fmap option_fmap option_map vl_vertices].
    f_equal. by apply c_int_fits. }
  split.
  { match goal with
    | |- live (<[hd := ?n]> b) = _ =>
        pose proof (live_insert b hd vl n Hvl) as Hl
    end.
    cbn in Hl. lia. }
  split; [intros i Hi; by apply list_lookup_insert_ne|].
  intros x2 y2 w2 h2. cbn [el_kind _group _vertex_list].
  rewrite list_lookup_insert_eq by done.
  cbn [vl_count vl_deleted]. by rewrite list_insert_insert_eq.
Qed.

Lemma update_rewrites_own_vertices_witness :
  let e := {| el_kind := quad32; _x := 0; _y := 0; width := 32; height := 32;
              _group := Some 0%nat; _vertex_list := Some 0%nat |} in
  let vl := {| vl_count := 4; vl_vertices := [0; 0; 32; 0; 32; 32; 0; 32];
               vl_deleted := false |} in
  (∃ e' b',
     update e [vl] 5 6 7 8 = Ok (e', b') ∧
     (vl_vertices <$> b' !! 0%nat) = Some [5; 6; 12; 6; 12; 14; 5; 14]) ∧
  (∃ e' b',
     update e [vl] (2 ^ 31) 0 7 8 = Ok (e', b') ∧
     (vl_vertices <$> b' !! 0%nat)
     = Some [- 2 ^ 31; 0; - 2 ^ 31 + 7; 0; - 2 ^ 31 + 7; 8; - 2 ^ 31; 8]).
Proof.
  intros e vl.
  assert (owns e [vl] 0) as Hown by (split; [done|by exists vl]).
  split.
  - destruct (update_rewrites_own_vertices e [vl] 0 5 6 7 8 Hown)
      as (e' & b' & Hu & Hb & Hk & _ & _ & Hvs & _).
    exists e', b'. split; [done|]. rewrite Hvs.
    unfold _get_vertices. rewrite Hk.
    injection Hb as -> -> -> ->. reflexivity.
  - destruct (update_rewrites_own_vertices e [vl] 0 (2 ^ 31) 0 7 8 Hown)
      as (e' & b' & Hu & Hb & Hk & _ & _ & Hvs & _).
    exists e', b'. split; [done|]. rewrite Hvs.
    unfold _get_vertices. rewrite Hk.
    injection Hb as -> -> -> ->. reflexivity.
Defined.

(** X4. A frame element updated to the size [get_needed_size] asks for a
    content of [cw] x [ch] has a content region whose origin is inset by the
    left and bottom padding, whose size is what [get_content_size] gives for
    the element's size and is at least [cw] x [ch]; with non-negative
    padding the region lies within the element's bounds. *)
Theorem content_region_after_resize (e : element) (b : batch)
    (outer inner : texture) (margins : sides) (l r t bt x y cw ch : Z) :
  el_kind e = FrameTextureGraphicElement outer inner margins (l, r, t, bt) →
  ∀ e' b',
    update e b x y (get_needed_size (el_kind e) cw ch).1
                   (get_needed_size (el_kind e) cw ch).2 = Ok (e', b') →
    ∃ rw rh,
      get_content_region e' = (x + l, y + bt, rw, rh) ∧
      get_content_size (el_kind e') (width e') (height e') = (rw, rh) ∧
      cw ≤ rw ∧ ch ≤ rh ∧
      (0 ≤ l → 0 ≤ r → 0 ≤ t → 0 ≤ bt →
       x ≤ x + l ∧ x + l + rw ≤ x + width e' ∧
       y ≤ y + bt ∧ y + bt + rh ≤ y + height e').
Proof.
  intros Hk e' b' Hu.
  assert (el_kind e' = el_kind e ∧ _x e' = x ∧ _y e' = y ∧
          width e' = (get_needed_size (el_kind e) cw ch).1 ∧
          height e' = (get_needed_size (el_kind e) cw ch).2)
    as (Hk' & Hx & Hy & Hw & Hh).
  { unfold update in Hu. cbn [_vertex_list] in Hu.
    destruct (_vertex_list e) as [hd|].
    - destruct (b !! hd); [|discriminate]. by injection Hu as <- <-.
    - by injection Hu as <- <-. }
  unfold get_content_region. rewrite Hk', Hk, Hx, Hy, Hw, Hh, Hk.
  cbn [get_needed_size get_content_size fst snd].
  eexists _, _. split; [done|]. split; [done|]. lia.
Qed.

Lemma content_region_after_resize_witness :
  let k := FrameTextureGraphicElement
             {| tex_width := 32; tex_height := 32 |}
             {| tex_width := 24; tex_height := 24 |}
             (4, 4, 4, 4) (2, 3, 4, 5) in
  let e := {| el_kind := k; _x := 0; _y := 0; width := 32; height := 32;
              _group := None; _vertex_list := None |} in
  ∃ e', update e [] 10 20 105 109 = Ok (e', []) ∧
        get_content_region e' = (12, 25, 100, 100).
Proof.
  intros k e.
  set (e' := {| el_kind := k; _x := 10; _y := 20; width := 105; height := 109;
                _group := None; _vertex_list := None |}).
  exists e'. split; [reflexivity|].
  destruct (content_region_after_resize e []
              {| tex_width := 32; tex_height := 32 |}
              {| tex_width := 24; tex_height := 24 |}
              (4, 4, 4, 4) 2 3 4 5 10 20 100 100 eq_refl e' [] eq_refl)
    as (rw & rh & Hr & Hs & _).
  rewrite Hr. cbn in Hs. by injection Hs as <- <-.
Defined.

End LifecycleFacts.

(** ** Texture coordinates *)

Module TexCoordsFacts.

Import TexCoords.

(** X5. The texture coordinates of a frame element are laid out on the 3x3
    grid whose columns are bounded by the outer left, inner left, inner
    right and outer right coordinate and whose rows are bounded likewise:
    the cell in column [c] and row [r] is quad [3 r + c], with its vertices
    in the order lower left, lower right, upper right, upper left.  The
    vertex positions of the element are laid out by the very same function
    of their boundaries, so that cell by cell geometry and texture agree. *)
Theorem tex_coords_grid {C : Type} (x1 x2 x3 x4 y1 y2 y3 y4 : C)
    (c r : nat) :
  (c < 3)%nat → (r < 3)%nat →
  let tc := _get_tex_coords (x1, y1) (x4, y4) (x2, y2) (x3, y3) in
  let X := [x1; x2; x3; x4] in
  let Y := [y1; y2; y3; y4] in
  let i := (3 * r + c)%nat in
  vertex tc (4 * i) = (x ← X !! c; y ← Y !! r; Some (x, y)) ∧
  vertex tc (4 * i + 1) = (x ← X !! S c; y ← Y !! r; Some (x, y)) ∧
  vertex tc (4 * i + 2) = (x ← X !! S c; y ← Y !! S r; Some (x, y)) ∧
  vertex tc (4 * i + 3) = (x ← X !! c; y ← Y !! S r; Some (x, y)) ∧
  ∀ (outer inner : Element.texture) (padding : Element.sides)
    (l rt t b x y W H : Z) (g v : option nat),
    Element._get_vertices
      (Element.frame_at outer inner (l, rt, t, b) padding x y W H g v)
    = _get_tex_coords (x, y) (x + W, y + H) (x + l, y + b)
                      (x + W - rt, y + H - t).
Proof.
  intros Hc Hr.
  destruct c as [|[|[|c]]]; [| | |lia];
    (destruct r as [|[|[|r]]]; [| | |lia]); repeat split.
Qed.

Lemma tex_coords_grid_witness :
  vertex (_get_tex_coords (0, 0) (32, 32) (4, 4) (28, 28)) 34 = Some (32, 32)
  ∧ vertex (_get_tex_coords (0, 0) (32, 32) (4, 4) (28, 28)) 16 = Some (4, 4).
Proof.
  assert (2 < 3)%nat as H2 by lia. assert (1 < 3)%nat as H1 by lia.
  split.
  - exact (proj1 (proj2 (proj2
             (tex_coords_grid 0 4 28 32 0 4 28 32 2 2 H2 H2)))).
  - exact (proj1 (tex_coords_grid 0 4 28 32 0 4 28 32 1 1 H1 H1)).
Defined.

End TexCoordsFacts.

(** ** Scoped lookup *)

Module LookupFacts.

Import ScopedDict ScopedDictFacts.

Implicit Types (h : heap) (k : string) (v default : value).

(** X6. Indexing with a single key returns exactly the value bound by the
    nearest store of the parent chain that has the key, provided the fuel
    covers the links walked. *)
Theorem getitem_nearest_binding fuel h s k v :
  getitem_key fuel h s k = Ok v ↔
  ∃ P d, binds h k s P v d ∧ (d < fuel)%nat.
Proof.
  split; [|intros (P & d & Hb & Hd); by eapply binds_getitem].
  revert s. induction fuel as [|fuel IH]; intros s Hg; [discriminate|].
  cbn [getitem_key] in Hg.
  destruct (h !! s) as [n|] eqn:Hs; [|discriminate].
  destruct (dict_lookup k (items n)) as [w|] eqn:Hk.
  - injection Hg as ->. exists s, 0%nat. split; [by econstructor|lia].
  - destruct (parent n) as [p|] eqn:Hp; [|discriminate].
    destruct (IH p Hg) as (P & d & Hb & Hd).
    exists P, (S d). split; [by eapply binds_up|lia].
Qed.

(** X7. [get] on a single key never does worse than indexing: where
    indexing returns a value, [get] returns that value or the default, and
    where indexing raises [KeyError], [get] returns the default. *)
Theorem get_defaults_where_index_fails fuel h s k default :
  (∀ v, getitem_key fuel h s k = Ok v →
        get_key fuel h s k default = Ok v ∨
        get_key fuel h s k default = Ok default) ∧
  (getitem_key fuel h s k = Raise KeyError →
   get_key fuel h s k default = Ok default).
Proof.
  revert s. induction fuel as [|fuel IH]; intros s; [by split|].
  cbn [getitem_key get_key].
  destruct (h !! s) as [n|]; [|by split].
  destruct (dict_lookup k (items n)); [split; [by left|done]|].
  destruct (parent n) as [p|]; [|by split].
  destruct (truthy h (VRef p)); [apply IH|]. split; [by right|done].
Qed.

(** X8. [get_path] and [get] with a list agree on every path: one returns
    a value exactly when the other returns it. *)
Theorem get_path_agrees_with_get fuel h s (path : list string) default v :
  get_path fuel h s path default = Ok v ↔
  get fuel h s (KPath path) default = Ok v.
Proof.
  cbn [get]. revert s. induction path as [|k path IH]; intros s; [done|].
  cbn [get_path get_list]. destruct path as [|k' path]; [done|].
  destruct (getitem_key fuel h s k) as [t|]; [|done].
  cbn [mbind result_bind]. destruct t; first [apply IH | done].
Qed.

Lemma getitem_nearest_binding_witness :
  ∃ P d, binds nested_heap "button" 6 P (VRef 4) d ∧ (d < 3)%nat.
Proof.
  apply (proj1 (getitem_nearest_binding 3 nested_heap 6 "button" (VRef 4))).
  vm_compute. reflexivity.
Defined.

Lemma get_defaults_where_index_fails_witness :
  (get_key 3 empty_parent_heap 2 "k" VNone = Ok (VInt 1) ∨
   get_key 3 empty_parent_heap 2 "k" VNone = Ok VNone) ∧
  get_key 3 empty_parent_heap 2 "missing" VNone = Ok VNone.
Proof.
  destruct (get_defaults_where_index_fails 3 empty_parent_heap 2 "k" VNone)
    as [Hfound _].
  destruct (get_defaults_where_index_fails 3 empty_parent_heap 2 "missing"
              VNone) as [_ Hmissing].
  split.
  - apply Hfound. vm_compute. reflexivity.
  - apply Hmissing. vm_compute. reflexivity.
Defined.

Lemma get_path_agrees_with_get_witness :
  get 3%nat nested_heap 0 (KPath ["button"; "down"]) VNone
  = Ok (VRef 6).
Proof.
  apply (proj1 (get_path_agrees_with_get 3%nat nested_heap 0
                  ["button"; "down"] VNone (VRef 6))).
  vm_compute. reflexivity.
Defined.

(** ** Construction and assignment *)

Section AssignmentFacts.

Implicit Types (d : list (string * value)).

Lemma dict_lookup_None d k :
  dict_lookup k d = None ↔ k ∉ d.*1.
Proof.
  induction d as [|[k' w] d IH]; cbn.
  - split; [intros _ []%elem_of_nil|done].
  - rewrite not_elem_of_cons. destruct (decide (k = k')) as [->|Hne].
    + split; [done|]. by intros [? _].
    + rewrite IH. split; [done|]. by intros [_ ?].
Qed.

Lemma dict_set_fresh d k v :
  dict_lookup k d = None → dict_set k v d = d ++ [(k, v)].
Proof.
  induction d as [|[k' w] d IH]; cbn; [done|].
  destruct (decide (k = k')); [done|]. intros Hk. by rewrite IH.
Qed.

(** Looking up any key but the assigned one gives the same result in every
    store, before and after a local assignment. *)
Lemma getitem_key_store_other h T n k v k' :
  h !! T = Some n → k' ≠ k →
  ∀ fuel s,
    getitem_key fuel
      (<[T := {| parent := parent n; items := dict_set k v (items n) |}]> h)
      s k'
    = getitem_key fuel h s k'.
Proof.
  intros Hn Hk fuel. induction fuel as [|fuel IH]; intros s; [done|].
  cbn [getitem_key]. destruct (decide (s = T)) as [->|Hs].
  - rewrite list_lookup_insert_eq by (by eapply lookup_lt_Some).
    rewrite Hn. cbn [items parent]. rewrite dict_lookup_set_ne by done.
    destruct (dict_lookup k' (items n)); [done|].
    destruct (parent n); [apply IH|done].
  - rewrite list_lookup_insert_ne by done.
    destruct (h !! s) as [m|]; [|done].
    destruct (dict_lookup k' (items m)); [done|].
    destruct (parent m); [apply IH|done].
Qed.

Lemma navigate_store_other h T n k v fuel segs :
  h !! T = Some n → k ∉ segs →
  ∀ s,
    navigate fuel
      (<[T := {| parent := parent n; items := dict_set k v (items n) |}]> h)
      s segs
    = navigate fuel h s segs.
Proof.
  intros Hn. induction segs as [|k0 segs IH]; intros Hk s; [done|].
  apply not_elem_of_cons in Hk as [Hne Hk]. cbn [navigate].
  rewrite (getitem_key_store_other h T n k v k0 Hn) by done.
  destruct (getitem_key fuel h s k0) as [t|]; [|done].
  cbn [mbind result_bind]. destruct t; first [by apply IH | done].
Qed.

Lemma get_path_navigate fuel h s segs k default :
  get_path fuel h s (segs ++ [k]) default
  = (T ← navigate fuel h s segs; get_key fuel h T k default).
Proof.
  revert s. induction segs as [|k0 segs IH]; intros s; [done|].
  cbn [navigate]. rewrite <- app_comm_cons. cbn [get_path].
  assert (∃ k1 r, segs ++ [k] = k1 :: r) as (k1 & r & Heq)
    by (destruct segs; simpl; eauto).
  rewrite Heq.
  destruct (getitem_key fuel h s k0) as [t|]; [|done].
  cbn [mbind result_bind]. rewrite <- Heq.
  destruct t; first [apply IH | done].
Qed.

Lemma getitem_path_navigate fuel h s segs k T :
  navigate fuel h s segs = Ok T →
  getitem_path fuel h s (segs ++ [k]) = getitem_key fuel h T k.
Proof.
  revert s. induction segs as [|k0 segs IH]; intros s.
  - by intros [= ->].
  - cbn [navigate]. rewrite <- app_comm_cons. cbn [getitem_path].
    assert (∃ k1 r, segs ++ [k] = k1 :: r) as (k1 & r & Heq)
      by (destruct segs; simpl; eauto).
    rewrite Heq.
    destruct (getitem_key fuel h s k0) as [t|]; [|done].
    cbn [mbind result_bind]. rewrite <- Heq.
    destruct t; first [apply IH | done].
Qed.

(** X9. What [set_path] stores, the same path reads back: after a
    successful [set_path] of a value that is no dict along a path whose last
    segment does not occur among its leading segments, [get_path] and
    indexing with that path return the value. *)
Theorem set_path_get_path fuel h s segs k v default h' :
  (0 < fuel)%nat → is_dict v = false → k ∉ segs →
  set_path fuel h s (segs ++ [k]) v = Ok h' →
  get_path fuel h' s (segs ++ [k]) default = Ok v ∧
  __getitem__ fuel h' s (KPath (segs ++ [k])) = Ok v.
Proof.
  intros Hf Hv Hk Hset. rewrite set_path_navigate in Hset.
  destruct (navigate fuel h s segs) as [T|] eqn:Hnav; [|discriminate].
  cbn [mbind result_bind] in Hset.
  unfold __setitem__, setitem_with in Hset. rewrite Hv in Hset.
  apply store_spec in Hset as (n & Hn & ->).
  pose proof (navigate_store_other h T n k v fuel segs Hn Hk s) as Hnav'.
  rewrite Hnav in Hnav'.
  assert (getitem_key fuel
            (<[T := {| parent := parent n;
                       items := dict_set k v (items n) |}]> h) T k = Ok v)
    as Hget.
  { destruct fuel; [lia|]. cbn [getitem_key].
    rewrite list_lookup_insert_eq by (by eapply lookup_lt_Some).
    cbn [items]. by rewrite dict_lookup_set_eq. }
  split.
  - rewrite get_path_navigate, Hnav'. cbn [mbind result_bind].
    destruct fuel; [lia|]. cbn [get_key].
    rewrite list_lookup_insert_eq by (by eapply lookup_lt_Some).
    cbn [items]. by rewrite dict_lookup_set_eq.
  - cbn [__getitem__]. by rewrite (getitem_path_navigate _ _ _ _ _ _ Hnav').
Qed.

Lemma set_path_get_path_witness :
  ∃ h', set_path 3 nested_heap 6 ["button"; "x"] (VInt 5) = Ok h' ∧
        get_path 3 h' 6 ["button"; "x"] VNone = Ok (VInt 5) ∧
        __getitem__ 3 h' 6 (KPath ["button"; "x"]) = Ok (VInt 5).
Proof.
  eexists. split; [vm_compute; reflexivity|].
  apply (set_path_get_path 3 nested_heap 6 ["button"] "x" (VInt 5) VNone);
    [lia|done| |vm_compute; reflexivity].
  by intros [=]%list_elem_of_singleton.
Defined.

(** Without the proviso the path may stop resolving: once "button" is
    bound to 5 in the parent, the path through "button" ends at a number. *)
Example set_path_shadows_own_path :
  (h' ← set_path 3 nested_heap 6 ["button"; "button"] (VInt 5);
   get_path 3 h' 6 ["button"; "button"] VNone)
  = Raise AttributeError.
Proof. vm_compute. reflexivity. Qed.

(** X10. A plain dict with distinct keys and no dict among its values is
    taken over as it is: the constructor appends one store with the given
    parent and exactly the dict's items, in order, and changes nothing
    else. *)
Theorem init_flat_dict fuel h d (par : option nat) :
  NoDup d.*1 → (∀ k v, (k, v) ∈ d → is_dict v = false) →
  __init__ (S fuel) h (VDict d) par
  = Ok (h ++ [{| parent := par; items := d |}], length h).
Proof.
  intros Hnd Hflat. cbn [__init__ items_of mbind result_bind].
  assert (∀ rest acc,
            NoDup (acc.*1 ++ rest.*1) →
            (∀ k v, (k, v) ∈ rest → is_dict v = false) →
            for_each
              (λ hc '(k, v),
                 if is_dict v
                 then '(h1, c) ← __init__ fuel hc v (Some (length h));
                      setitem_with (__init__ fuel) h1 (length h) k (VRef c)
                 else setitem_with (__init__ fuel) hc (length h) k v)
              (h ++ [{| parent := par; items := acc |}]) rest
            = Ok (h ++ [{| parent := par; items := acc ++ rest |}])) as Hloop.
  { induction rest as [|[k v] rest IH]; intros acc Hnd' Hfl.
    - by rewrite app_nil_r.
    - cbn [for_each].
      assert (is_dict v = false) as Hv
        by apply (Hfl k v), list_elem_of_here.
      assert (setitem_with (__init__ fuel)
                (h ++ [{| parent := par; items := acc |}]) (length h) k v
              = Ok (h ++ [{| parent := par; items := acc ++ [(k, v)] |}]))
        as Hstep.
      { unfold setitem_with, store.
        rewrite Hv, list_lookup_middle by done. cbn [parent items].
        rewrite insert_app_r_alt, Nat.sub_diag by done. cbn.
        rewrite dict_set_fresh; [done|].
        apply dict_lookup_None. cbn in Hnd'.
        apply NoDup_app in Hnd' as (_ & Hdis & _).
        intros Hin. apply (Hdis k Hin). apply list_elem_of_here. }
      rewrite Hv, Hstep. cbn [mbind result_bind].
      rewrite IH.
      + by rewrite <- app_assoc.
      + rewrite fmap_app, <- app_assoc. exact Hnd'.
      + intros k' v' Hin. apply (Hfl k' v'). by apply list_elem_of_further. }
  rewrite (Hloop d []) by done. done.
Qed.

Lemma init_flat_dict_witness :
  __init__ 1 [] (VDict [("color", VInt 7); ("font", VStr "mono")]) None
  = Ok ([{| parent := None;
            items := [("color", VInt 7); ("font", VStr "mono")] |}], 0%nat).
Proof.
  apply (init_flat_dict 0 [] [("color", VInt 7); ("font", VStr "mono")] None).
  - cbn. apply NoDup_cons. split; [|apply NoDup_singleton].
    by intros [=]%list_elem_of_singleton.
  - intros k v [[= -> ->]|[[= -> ->]|[]%elem_of_nil]%elem_of_cons]%elem_of_cons;
      done.
Defined.




(** *** Parents come first *)

Lemma parents_first_app h n :
  parents_first h → (∀ p, parent n = Some p → (p < length h)%nat) →
  parents_first (h ++ [n]).
Proof.
  intros Hwf Hn a m p Ha Hp.
  destruct (decide (a < length h)%nat) as [Hlt|Hge].
  - rewrite lookup_app_l in Ha by done. by eapply Hwf.
  - rewrite lookup_app_r in Ha by lia.
    destruct (a - length h)%nat as [|j] eqn:Hj; [|done].
    injection Ha as <-. specialize (Hn p Hp). lia.
Qed.

Lemma parents_first_store h s k v h' :
  parents_first h → store h s k v = Ok h' → parents_first h'.
Proof.
  intros Hwf (n & Hn & ->)%store_spec a m p Ha Hp.
  destruct (decide (a = s)) as [->|Hne].
  - rewrite list_lookup_insert_eq in Ha by (by eapply lookup_lt_Some).
    injection Ha as <-. by eapply Hwf.
  - rewrite list_lookup_insert_ne in Ha by done. by eapply Hwf.
Qed.

Lemma init_parents_first fuel h arg (par : option nat) h' a :
  parents_first h → (∀ p, par = Some p → (p < length h)%nat) →
  __init__ fuel h arg par = Ok (h', a) → parents_first h'.
Proof.
  revert h arg par h' a.
  induction fuel as [|fuel IH]; intros h arg par h' a Hwf Hpar Hrun;
    [discriminate|].
  cbn [__init__] in Hrun.
  destruct (items_of h arg) as [its|]; [|discriminate].
  cbn [mbind result_bind] in Hrun.
  match type of Hrun with
  | context [for_each ?body ?start its] =>
      destruct (for_each body start its) as [hf|] eqn:Hloop; [|discriminate];
      apply (for_each_invariant
               (λ hc, (length h < length hc)%nat ∧ parents_first hc))
        in Hloop
  end.
  - cbn in Hrun. injection Hrun as <- <-. by destruct Hloop.
  - clear Hrun. intros hc [k v] hc' [Hlen Hwfc] Hbody.
    assert (∀ hx w hy,
              (length h < length hx)%nat → parents_first hx →
              setitem_with (__init__ fuel) hx (length h) k w = Ok hy →
              (length h < length hy)%nat ∧ parents_first hy) as Hset.
    { intros hx w hy Hl Hw Hs. unfold setitem_with in Hs.
      destruct (is_dict w).
      - destruct (__init__ fuel hx w (Some (length h)))
          as [[h1 c]|] eqn:Hi; [|discriminate].
        cbn [mbind result_bind] in Hs.
        pose proof (init_keeps_prefix _ _ _ _ _ _ Hi) as (_ & _ & Hl1).
        apply IH in Hi; [|done|by intros ? [= <-]].
        pose proof (parents_first_store _ _ _ _ _ Hi Hs).
        apply store_spec in Hs as (? & _ & ->).
        rewrite length_insert. split; [lia|done].
      - pose proof (parents_first_store _ _ _ _ _ Hw Hs).
        apply store_spec in Hs as (? & _ & ->).
        rewrite length_insert. by split. }
    destruct (is_dict v).
    + destruct (__init__ fuel hc v (Some (length h)))
        as [[h1 c]|] eqn:Hi; [|discriminate].
      cbn [mbind result_bind] in Hbody.
      pose proof (init_keeps_prefix _ _ _ _ _ _ Hi) as (_ & _ & Hl1).
      apply IH in Hi; [|done|by intros ? [= <-]].
      eapply Hset; [| |exact Hbody]; [lia|done].
    + by eapply Hset.
  - split; [rewrite length_app; cbn; lia|].
    apply parents_first_app; [done|]. cbn. exact Hpar.
Qed.

(** X12. Construction keeps parents before their children: from a heap in
    which every parent precedes its children, [ScopedDict(arg, parent)] with
    an existing parent, and likewise an assignment to an existing store,
    yield such a heap again; there [get] on a single key, given as much fuel
    as there are stores, returns a value for every store, key and default. *)
Theorem construction_keeps_parents_first fuel h :
  parents_first h →
  (∀ arg (par : option nat) h' a,
     (∀ p, par = Some p → (p < length h)%nat) →
     __init__ fuel h arg par = Ok (h', a) →
     parents_first h' ∧
     ∀ s k default, (s < length h')%nat →
                    ∃ v, get_key (length h') h' s k default = Ok v) ∧
  (∀ T k v h',
     (T < length h)%nat →
     __setitem__ fuel h T k v = Ok h' →
     parents_first h' ∧
     ∀ s k' default, (s < length h')%nat →
                     ∃ w, get_key (length h') h' s k' default = Ok w).
Proof.
  intros Hwf. split.
  - intros arg par h' a Hpar Hrun.
    pose proof (init_parents_first _ _ _ _ _ _ Hwf Hpar Hrun) as Hwf'.
    split; [done|]. intros s k default Hs. by apply get_key_returns.
  - intros T k v h' HT Hset.
    assert (parents_first h') as Hwf'.
    { unfold __setitem__, setitem_with in Hset. destruct (is_dict v).
      - destruct (__init__ fuel h v (Some T)) as [[h1 c]|] eqn:Hi;
          [|discriminate].
        cbn [mbind result_bind] in Hset.
        apply init_parents_first in Hi; [|done|by intros ? [= <-]].
        by eapply parents_first_store.
      - by eapply parents_first_store. }
    split; [done|]. intros s k' default Hs. by apply get_key_returns.
Qed.

Lemma construction_keeps_parents_first_witness :
  parents_first nested_heap ∧
  ∃ v, get_key 7 nested_heap 6 "button" VNone = Ok v.
Proof.
  assert (parents_first []) as Hnil by (intros a n p [=]).
  destruct (construction_keeps_parents_first 3 [] Hnil) as [Hinit _].
  destruct (Hinit (VDict [("button", VDict [("down", VDict [])])]) None
              nested_heap 0%nat) as [Hwf Hget];
    [by intros ? [=]|vm_compute; reflexivity|].
  split; [exact Hwf|]. apply (Hget 6%nat "button" VNone). cbn. lia.
Defined.

End AssignmentFacts.

End LookupFacts.

(** ** Building a theme *)

Module BuildFacts.

Import ScopedDict Theme ScopedDictFacts ThemeFacts.

(** Every cached filename is the [src] of the texture cached for it. *)
Definition cache_src (st : state) : Prop :=
  ∀ f t, dict_lookup f (_textures st) = Some t →
         ∃ x, textures st !! t = Some x ∧ tex_src x = Some f.

(** Split an equation [(m ≫= k) = Ok r] on the result of [m]. *)
Ltac bind_ok H :=
  match type of H with
  | mbind _ ?m = Ok _ =>
      let E := fresh "E" in
      destruct m eqn:E; [|discriminate H]; cbn [mbind result_bind] in H
  end.

Section Loader.

Variable loader : string → option (Z * Z).

Implicit Types (st : state) (f : string).

Lemma set_item_cache_ok fuel st target k v st' :
  cache_ok st → set_item fuel st target k v = Ok st' → cache_ok st'.
Proof.
  intros Hok Hs. unfold set_item in Hs. bind_ok Hs. by injection Hs as <-.
Qed.

Lemma get_region_cache_ok st t x y w h st1 r :
  cache_ok st → get_region st t x y w h = Ok (st1, r) → cache_ok st1.
Proof.
  intros (Hlt & Hdec & Hnd) Hg. unfold get_region in Hg.
  destruct (textures st !! t); [|discriminate]. injection Hg as <- <-.
  split; [|done]. cbn. intros f' t' Ht'%Hlt. rewrite length_app. lia.
Qed.

Lemma frame_template_cache_ok st texture frame padding width height st1 tpl :
  cache_ok st →
  FrameTextureGraphicElementTemplate st texture frame padding width height
  = Ok (st1, tpl) →
  cache_ok st1.
Proof.
  intros Hok Hf. unfold FrameTextureGraphicElementTemplate in Hf.
  bind_ok Hf. bind_ok Hf. bind_ok Hf.
  destruct a1 as [[[fx fy] fw] fh].
  destruct texture; try discriminate.
  bind_ok Hf. destruct a1 as [st2 ft]. bind_ok Hf. bind_ok Hf.
  injection Hf as <- <-. by eapply get_region_cache_ok.
Qed.

Lemma image_texture_cache_ok fuel st v st1 t :
  cache_ok st → image_texture loader fuel st v = Ok (st1, t) → cache_ok st1.
Proof.
  intros Hok Hi. unfold image_texture in Hi. bind_ok Hi.
  destruct a.
  - bind_ok Hi. bind_ok Hi. bind_ok Hi. destruct a1 as [[[x y] w] h].
    bind_ok Hi. by eapply get_texture_region_cache_ok.
  - bind_ok Hi. bind_ok Hi. by eapply get_texture_cache_ok.
Qed.

Lemma update_with_images_cache_ok fuel st self target input_dict st' :
  cache_ok st →
  _update_with_images loader fuel st self target input_dict = Ok st' →
  cache_ok st'.
Proof.
  revert st self target input_dict st'.
  induction fuel as [|fuel IH]; intros st self target input_dict st' Hok Hrun;
    [discriminate|].
  cbn [_update_with_images] in Hrun. bind_ok Hrun.
  eapply (for_each_invariant cache_ok); [|exact Hok|exact Hrun].
  clear Hrun Hok E. intros sta [k v] stb Hok Hbody.
  destruct (String.prefix "image" k).
  - destruct (is_dict v).
    + bind_ok Hbody. destruct a0 as [st1 t].
      apply image_texture_cache_ok in E; [|done].
      bind_ok Hbody. destruct a0.
      * bind_ok Hbody. bind_ok Hbody. bind_ok Hbody. destruct a2 as [st2 tpl].
        apply frame_template_cache_ok in E3; [|done].
        by eapply set_item_cache_ok.
      * bind_ok Hbody. by eapply set_item_cache_ok.
    + bind_ok Hbody. bind_ok Hbody. destruct a1 as [st1 t].
      apply get_texture_cache_ok in E0; [|done].
      bind_ok Hbody. by eapply set_item_cache_ok.
  - destruct (is_dict v).
    + bind_ok Hbody. destruct a0 as [h1 temp]. bind_ok Hbody.
      apply IH in E0; [|done]. by eapply set_item_cache_ok.
    + by eapply set_item_cache_ok.
Qed.

(** X13. However the dictionary is nested, a theme that is built has its
    cache in order: no file was decoded twice, every decoded file is
    cached, and every cached filename names an existing texture. *)
Theorem theme_decodes_each_file_once fuel h ts dictionary st self :
  Theme.__init__ loader fuel h ts dictionary = Ok (st, self) →
  NoDup (decoded st) ∧
  (∀ f, f ∈ decoded st → is_Some (dict_lookup f (_textures st))) ∧
  (∀ f t, dict_lookup f (_textures st) = Some t →
          (t < length (textures st))%nat).
Proof.
  intros Hrun. unfold Theme.__init__ in Hrun.
  bind_ok Hrun. destruct a as [h1 self']. bind_ok Hrun.
  injection Hrun as <- <-.
  apply update_with_images_cache_ok in E0 as (Hlt & Hdec & Hnd); [done|].
  split; [|split]; [intros ? ? [=]|intros ? []%elem_of_nil|constructor].
Qed.

Lemma get_texture_cache_src st f st1 t :
  cache_ok st → cache_src st →
  _get_texture loader st f = Ok (st1, t) → cache_src st1.
Proof.
  intros (Hlt & _) Hsrc Hg. unfold _get_texture in Hg.
  destruct (dict_lookup f (_textures st)) as [t0|] eqn:Hc.
  - by injection Hg as <- <-.
  - destruct (loader f) as [[w hh]|]; [|discriminate].
    injection Hg as <- <-. intros f' t'. cbn.
    destruct (decide (f' = f)) as [->|Hne].
    + rewrite dict_lookup_set_eq. intros [= <-].
      eexists. split; [by apply list_lookup_middle|done].
    + rewrite dict_lookup_set_ne by done. intros Ht'.
      destruct (Hsrc f' t' Ht') as (x & Hx & Hs).
      exists x. split; [|done]. rewrite lookup_app_l; [done|by eapply Hlt].
Qed.

(** X14. With the cache in order and every cached texture carrying its
    filename as [src], the texture [_get_texture_region] returns is a new
    one of the requested size whose [src] is the filename and whose
    [region] is the requested rectangle; the textures that existed are left
    as they were, and both cache properties keep holding. *)
Theorem region_texture_attributes st f x y w h st1 r :
  cache_ok st → cache_src st →
  _get_texture_region loader st f x y w h = Ok (st1, r) →
  textures st1 !! r
  = Some {| tex_width := w; tex_height := h;
            tex_src := Some f; tex_region := Some (x, y, w, h) |} ∧
  (length (textures st) ≤ r)%nat ∧
  (∀ i, (i < length (textures st))%nat →
        textures st1 !! i = textures st !! i) ∧
  cache_ok st1 ∧ cache_src st1.
Proof.
  intros Hok Hsrc Hr.
  pose proof (get_texture_region_cache_ok _ _ _ _ _ _ _ _ _ Hok Hr) as Hok1.
  unfold _get_texture_region, get_region in Hr.
  destruct (_get_texture loader st f) as [[sta t]|] eqn:Hg; [|discriminate].
  cbn [mbind result_bind] in Hr.
  pose proof (get_texture_cache_ok _ _ _ _ _ Hok Hg) as Hoka.
  pose proof (get_texture_cache_src _ _ _ _ Hok Hsrc Hg) as Hsrca.
  apply get_texture_spec in Hg as (Hc & _ & Hcase).
  destruct (Hsrca f t Hc) as (whole & Hwhole & Hws).
  pose proof (lookup_lt_Some _ _ _ Hwhole) as Hlt.
  rewrite Hwhole in Hr. cbn [mbind result_bind textures] in Hr.
  rewrite lookup_app_l, Hwhole in Hr by done.
  rewrite list_lookup_middle in Hr by done.
  injection Hr as <- <-. cbn [textures _textures tex_width tex_height].
  assert (length (textures st) ≤ length (textures sta))%nat as Hle.
  { destruct Hcase as [[_ ->]|(_ & _ & [? ->] & _)]; [done|].
    rewrite length_app. lia. }
  split.
  { rewrite list_lookup_insert_eq by (rewrite length_app; cbn; lia).
    by rewrite Hws. }
  split; [done|]. split.
  { intros i Hi. rewrite list_lookup_insert_ne by lia.
    rewrite lookup_app_l by lia.
    destruct Hcase as [[_ ->]|(_ & _ & [? ->] & _)]; [done|].
    by rewrite lookup_app_l. }
  split; [done|].
  intros f' t' Ht'. cbn [_textures] in Ht'.
  destruct (Hsrca f' t' Ht') as (x0 & Hx0 & Hs0).
  exists x0. split; [|done]. cbn [textures].
  pose proof (lookup_lt_Some _ _ _ Hx0).
  rewrite list_lookup_insert_ne by lia. by rewrite lookup_app_l.
Qed.

End Loader.

Lemma region_texture_attributes_witness :
  ∃ st1,
    _get_texture_region loader32 no_textures "a.png" 2 3 8 9 = Ok (st1, 1%nat)
    ∧ textures st1 !! 1%nat
      = Some {| tex_width := 8; tex_height := 9;
                tex_src := Some "a.png"; tex_region := Some (2, 3, 8, 9) |}.
Proof.
  destruct (_get_texture_region loader32 no_textures "a.png" 2 3 8 9)
    as [[st1 r]|e] eqn:Hr; [|by vm_compute in Hr].
  assert (r = 1%nat) as -> by (vm_compute in Hr; by injection Hr).
  exists st1. split; [done|].
  apply (region_texture_attributes loader32 no_textures "a.png" 2 3 8 9
           st1 1); [|by intros ? ? [=]|done].
  split; [|split]; [intros ? ? [=]|intros ? []%elem_of_nil|constructor].
Defined.

Lemma theme_decodes_each_file_once_witness :
  ∃ st, Theme.__init__ loader32 2 [] []
          (VDict [("image_a", region_spec); ("image_b", region_spec)])
        = Ok (st, 0%nat) ∧ NoDup (decoded st).
Proof.
  destruct (Theme.__init__ loader32 2 [] []
              (VDict [("image_a", region_spec); ("image_b", region_spec)]))
    as [[st self]|e] eqn:Hr; [|by vm_compute in Hr].
  assert (self = 0%nat) as -> by (vm_compute in Hr; by injection Hr).
  exists st. split; [done|].
  exact (proj1 (theme_decodes_each_file_once loader32 2 [] [] _ st 0%nat Hr)).
Defined.

End BuildFacts.

(** ** From a frame template to the geometry of its elements *)

Module TemplateFacts.

Import Theme.

(** The vertices of a frame element read back as the grid of its
    boundaries, whatever the margins. *)
Lemma frame_cells (outer inner : Element.texture) (padding : Element.sides)
    (l r t b x y W H : Z) (g v : option nat) :
  Element.cells_of
    (Element._get_vertices
       (Element.frame_at outer inner (l, r, t, b) padding x y W H g v))
  = Some (Element.grid x (x + l) (x + W - r) (x + W)
                       y (y + b) (y + H - t) (y + H)).
Proof.
  unfold Element.frame_at, Element._get_vertices, Element.int; simpl.
  repeat (rewrite bool_decide_true by (repeat split; reflexivity); simpl).
  reflexivity.
Qed.

(** X15. A frame template of an existing texture is always built: it keeps
    the texture and its size, takes a new texture of the frame's size, and
    its margins are the distances from the frame to the texture's edges.
    When the frame lies inside the texture, an element with these margins
    tiles its bounds at every size [get_needed_size] returns, and at the
    texture's own size its centre cell is the frame itself. *)
Theorem frame_template_geometry (st : state) (t : nat) (tx : texture)
    (fx fy fw fh : Z) (padding : value) :
  textures st !! t = Some tx →
  let tw := tex_width tx in
  let th := tex_height tx in
  let m := (fx, tw - fw - fx, th - fh - fy, fy) in
  (∃ st1,
     FrameTextureGraphicElementTemplate st (VTexture t)
       (VList [VInt fx; VInt fy; VInt fw; VInt fh]) padding VNone VNone
     = Ok (st1, VFrameTemplate (VTexture t) (VInt tw) (VInt th)
                  (VTexture (length (textures st))) m padding) ∧
     textures st1 !! length (textures st)
     = Some {| tex_width := fw; tex_height := fh;
               tex_src := None; tex_region := None |}) ∧
  (0 ≤ fx → 0 ≤ fy → 0 ≤ fw → 0 ≤ fh → fx + fw ≤ tw → fy + fh ≤ th →
   ∀ (pl pr pt pb x y cw ch : Z) (g v : option nat),
     let outer := {| Element.tex_width := tw; Element.tex_height := th |} in
     let inner := {| Element.tex_width := fw; Element.tex_height := fh |} in
     let k := Element.FrameTextureGraphicElement outer inner m
                (pl, pr, pt, pb) in
     let W := (Element.get_needed_size k cw ch).1 in
     let H := (Element.get_needed_size k cw ch).2 in
     (∃ cs,
        Element.cells_of
          (Element._get_vertices
             (Element.frame_at outer inner m (pl, pr, pt, pb) x y W H g v))
        = Some cs ∧
        ∀ px py,
          Element.cover cs px py =
          if Element.in_cell
               {| Element.lo_x := x; Element.lo_y := y;
                  Element.hi_x := x + W; Element.hi_y := y + H |} px py
          then 1%nat else 0%nat) ∧
     (Element.cells_of
        (Element._get_vertices
           (Element.frame_at outer inner m (pl, pr, pt, pb) x y tw th g v))
      ≫= (.!! 4%nat))
     = Some {| Element.lo_x := x + fx; Element.lo_y := y + fy;
               Element.hi_x := x + fx + fw; Element.hi_y := y + fy + fh |}).
Proof.
  intros Htx tw th m. split.
  - unfold FrameTextureGraphicElementTemplate, or_else, get_region.
    cbn [ScopedDict.truthy getattr_width getattr_height unpack4 as_int
         mbind result_bind].
    rewrite Htx. cbn [mbind result_bind textures].
    rewrite lookup_app_l, Htx by (by eapply lookup_lt_Some).
    cbn [mbind result_bind as_int]. eexists. split; [done|].
    cbn [textures]. by apply list_lookup_middle.
  - intros Hfx Hfy Hfw Hfh Hx Hy pl pr pt pb x y cw ch g v outer inner k W H.
    clearbody tw th. split.
    + eexists. split; [apply frame_cells|].
      intros px py.
      apply ElementFacts.grid_cover; subst W H k m outer;
        cbn [Element.get_needed_size fst snd
             Element.tex_width Element.tex_height]; lia.
    + unfold m. rewrite frame_cells. cbn. do 2 f_equal; lia.
Qed.

Lemma frame_template_geometry_witness :
  let st := {| heap := [];
               textures := [{| tex_width := 32; tex_height := 32;
                               tex_src := Some "btn.png";
                               tex_region := None |}];
               _textures := [("btn.png", 0%nat)]; decoded := ["btn.png"] |} in
  (∃ st1,
     FrameTextureGraphicElementTemplate st (VTexture 0)
       (VList [VInt 4; VInt 4; VInt 24; VInt 24]) VNone VNone VNone
     = Ok (st1, VFrameTemplate (VTexture 0) (VInt 32) (VInt 32) (VTexture 1)
                  (4, 4, 4, 4) VNone)) ∧
  Element.cover (Element.grid 0 4 96 100 0 4 28 32) 50 30 = 1%nat.
Proof.
  intros st.
  destruct (frame_template_geometry st 0
              {| tex_width := 32; tex_height := 32;
                 tex_src := Some "btn.png"; tex_region := None |}
              4 4 24 24 VNone eq_refl) as [(st1 & Hbuild & _) Hgeo].
  split; [by exists st1|].
  cbn [tex_width tex_height] in Hgeo.
  destruct (Hgeo ltac:(lia) ltac:(lia) ltac:(lia) ltac:(lia) ltac:(lia)
              ltac:(lia) 0 0 0 0 0 0 100 10 None None)
    as [(cs & Hcs & Hcover) _].
  rewrite frame_cells in Hcs. cbn in Hcs. injection Hcs as <-.
  rewrite Hcover. reflexivity.
Defined.

(** X16. The size of a texture template: a width and height that are given
    and not zero are kept; [None] or zero is replaced by the texture's own
    width or height. *)
Theorem template_size_defaults (st : state) (t : nat) (tx : texture) :
  textures st !! t = Some tx →
  TextureGraphicElementTemplate st (VTexture t) VNone VNone
  = Ok (VTextureTemplate (VTexture t) (VInt (tex_width tx))
          (VInt (tex_height tx))) ∧
  ∀ w h : Z,
    TextureGraphicElementTemplate st (VTexture t) (VInt w) (VInt h)
    = Ok (VTextureTemplate (VTexture t)
            (VInt (if decide (w = 0) then tex_width tx else w))
            (VInt (if decide (h = 0) then tex_height tx else h))).
Proof.
  intros Htx. unfold TextureGraphicElementTemplate, or_else.
  cbn [ScopedDict.truthy getattr_width getattr_height]. rewrite Htx.
  split; [done|]. intros w h.
  destruct (decide (w = 0)) as [->|Hw]; destruct (decide (h = 0)) as [->|Hh];
    cbn [Z.eqb negb mbind result_bind];
    rewrite ?(proj2 (Z.eqb_neq w 0) Hw), ?(proj2 (Z.eqb_neq h 0) Hh); done.
Qed.

Lemma template_size_defaults_witness :
  let st := {| heap := [];
               textures := [{| tex_width := 32; tex_height := 16;
                               tex_src := None; tex_region := None |}];
               _textures := []; decoded := [] |} in
  TextureGraphicElementTemplate st (VTexture 0) (VInt 0) (VInt 8)
  = Ok (VTextureTemplate (VTexture 0) (VInt 32) (VInt 8)).
Proof.
  intros st.
  exact (proj2 (template_size_defaults st 0 _ eq_refl) 0 8).
Defined.

End TemplateFacts.

(** ** Plain entries *)

Module PlainFacts.

Import ScopedDict Theme ScopedDictFacts LookupFacts.

(** X17. In a heap where parents come first, indexing an existing store
    with a single key, given fuel beyond the store's index, either returns
    the value of the nearest binding or, when no store of the parent chain
    has the key, raises [KeyError]; it never fails in another way. *)
Theorem getitem_found_or_key_error fuel (h : ScopedDict.heap) (s : nat)
    (k : string) :
  parents_first h → (s < length h)%nat → (s < fuel)%nat →
  (∃ P v d, binds h k s P v d ∧ getitem_key fuel h s k = Ok v) ∨
  ((∀ P v d, ¬ binds h k s P v d) ∧
   getitem_key fuel h s k = Raise KeyError).
Proof.
  intros Hwf. revert s. induction fuel as [|fuel IH]; intros s Hs Hf; [lia|].
  destruct (lookup_lt_is_Some_2 h s Hs) as [n Hn].
  cbn [getitem_key]. rewrite Hn.
  destruct (dict_lookup k (items n)) as [v|] eqn:Hk.
  { left. exists s, v, 0%nat. split; [by econstructor|done]. }
  destruct (parent n) as [p|] eqn:Hp.
  - pose proof (Hwf s n p Hn Hp) as Hlt.
    destruct (IH p ltac:(lia) ltac:(lia))
      as [(P & v & d & Hb & Hg)|[Hnone Hg]].
    + left. exists P, v, (S d). split; [by eapply binds_up|done].
    + right. split; [|done]. intros P v d Hb.
      inversion Hb; subst; simplify_eq. by eapply Hnone.
  - right. split; [|done]. intros P v d Hb.
    inversion Hb; subst; simplify_eq.
Qed.

Lemma getitem_found_or_key_error_witness :
  __getitem__ 7 nested_heap 6 (KStr "missing") = Raise KeyError.
Proof.
  assert (parents_first nested_heap) as Hwf.
  { intros a n p Ha Hp.
    do 7 (destruct a as [|a]; [cbn in Ha; simplify_eq; cbn in Hp;
                               simplify_eq; lia|]).
    done. }
  destruct (getitem_found_or_key_error 7 nested_heap 6 "missing" Hwf)
    as [(P & v & d & _ & Hg)|[_ Hg]]; [cbn; lia|lia| |exact Hg].
  vm_compute in Hg. discriminate Hg.
Defined.

Section Loader.

Variable loader : string → option (Z * Z).

Lemma dict_set_same (d : list (string * value)) k v :
  NoDup d.*1 → (k, v) ∈ d → dict_set k v d = d.
Proof.
  induction d as [|[k' v'] d IH]; intros Hnd Hin;
    [by apply elem_of_nil in Hin|].
  cbn in Hnd. apply NoDup_cons in Hnd as [Hk' Hnd]. cbn.
  apply elem_of_cons in Hin as [[= -> ->]|Hin].
  - by rewrite decide_True.
  - destruct (decide (k = k')) as [->|Hne].
    + exfalso. apply Hk'. apply list_elem_of_fmap. by exists (k', v).
    + by rewrite IH.
Qed.

(** X18. A dictionary with distinct keys, none starting with "image", and
    no dict among its values makes a theme with exactly these items: one
    store without parent is added, and no texture is fetched, cached or
    decoded. *)
Theorem plain_theme fuel (h : ScopedDict.heap) (ts : list texture)
    (d : list (string * value)) :
  NoDup d.*1 →
  (∀ k v, (k, v) ∈ d → is_dict v = false ∧ String.prefix "image" k = false) →
  Theme.__init__ loader (S fuel) h ts (VDict d)
  = Ok ({| heap := h ++ [{| parent := None; items := d |}];
           textures := ts; _textures := []; decoded := [] |}, length h).
Proof.
  intros Hnd Hplain. unfold Theme.__init__.
  rewrite init_flat_dict; [|done|intros k v Hin; by apply (Hplain k v)].
  cbn [mbind result_bind _update_with_images items_of heap].
  set (st0 := {| heap := h ++ [{| parent := None; items := d |}];
                 textures := ts; _textures := []; decoded := [] |}).
  assert (∀ rest, (∀ x, x ∈ rest → x ∈ d) →
            for_each
              (λ st '(k, v),
                 if String.prefix "image" k
                 then
                   if is_dict v
                   then
                     '(st1, t) ← image_texture loader fuel st v;
                     has_frame ← value_contains (heap st1) "frame" v;
                     if has_frame : bool
                     then
                       frame ← value_getitem fuel (heap st1) v (KStr "frame");
                       padding ← value_get fuel (heap st1) v (KStr "padding")
                                   (VList [VInt 0; VInt 0; VInt 0; VInt 0]);
                       '(st2, tpl) ← FrameTextureGraphicElementTemplate st1
                                       (VTexture t) frame padding VNone VNone;
                       set_item fuel st2 (length h) k tpl
                     else
                       tpl ← TextureGraphicElementTemplate st1
                               (VTexture t) VNone VNone;
                       set_item fuel st1 (length h) k tpl
                   else
                     filename ← filename_of v;
                     '(st1, t) ← _get_texture loader st filename;
                     tpl ← TextureGraphicElementTemplate st1
                             (VRef (length h)) (VTexture t) VNone;
                     set_item fuel st1 (length h) k tpl
                 else
                   if is_dict v
                   then
                     '(h1, temp) ← ScopedDict.__init__ fuel (heap st) VNone
                                     (Some (length h));
                     st2 ← _update_with_images loader fuel (with_heap st h1)
                             (length h) temp v;
                     set_item fuel st2 (length h) k (VRef temp)
                   else set_item fuel st (length h) k v)
              st0 rest
            = Ok st0) as Hloop.
  { induction rest as [|[k v] rest IH]; intros Hsub; [done|].
    cbn [for_each].
    destruct (Hplain k v (Hsub _ (list_elem_of_here _ _))) as [Hv Hk].
    rewrite Hk, Hv. unfold set_item.
    rewrite (setitem_plain fuel (heap st0) (length h)
               {| parent := None; items := d |} k v)
      by (done || by apply list_lookup_middle).
    cbn [mbind result_bind parent items].
    rewrite dict_set_same by (done || apply Hsub, list_elem_of_here).
    rewrite list_insert_id by (by apply list_lookup_middle).
    change (with_heap st0 (heap st0)) with st0.
    apply IH. intros x Hx. apply Hsub. by apply list_elem_of_further. }
  rewrite Hloop by done. done.
Qed.

End Loader.

Lemma plain_theme_witness :
  Theme.__init__ loader32 1 [] []
    (VDict [("text_color", VInt 255); ("font", VStr "mono")])
  = Ok ({| heap := [{| parent := None;
                       items := [("text_color", VInt 255);
                                 ("font", VStr "mono")] |}];
           textures := []; _textures := []; decoded := [] |}, 0%nat).
Proof.
  apply (plain_theme loader32 0 [] []
           [("text_color", VInt 255); ("font", VStr "mono")]).
  - cbn. apply NoDup_cons. split; [|apply NoDup_singleton].
    by intros [=]%list_elem_of_singleton.
  - intros k v [[= -> ->]|[[= -> ->]|[]%elem_of_nil]%elem_of_cons]%elem_of_cons;
      done.
Defined.

End PlainFacts.
